(** * UVM testbench generator: a shallow embedding of [UVM_Tb_generator.py]

    The script reads a small CSV description of a DUT and its bus
    interfaces and writes a tree of SystemVerilog/UVM skeleton files plus
    a cumulative [README.txt].  This development embeds the script as
    Rocq functions and proves properties of the parser, of the five
    generators and of the whole run.

    Conventions of the embedding.
    - A Python [str] is a [string]; a character is an [ascii].  Case
      mapping and white space follow Python on the ASCII range; bytes
      above 127 (the UTF-8 encoding of the few non-ASCII characters the
      script prints) are left untouched by [lower], [upper] and [strip].
    - [csv.reader] is outside the script: the parser is embedded from the
      point where it receives the rows, each row a list of cells.
    - The file system is a finite map from path to content; [print] is a
      list of the printed arguments.  Directories are not recorded and an
      [open] for writing is taken to succeed: the script calls
      [os.makedirs] on the directory it builds each path from, which is
      the directory of the file unless an interface name has a slash in
      it.  Paths are compared as strings.
    - [os.getcwd()] is the section variable [cwd]; [os.path.join] is the
      POSIX one.
    - The time stamp and interpreter banner the script prints before
      parsing, and the mirroring of the console into [Py_log.txt], are
      left out.
    - [int] has no bound on the number of digits it reads (the bound of
      recent interpreters is a setting of the interpreter, not of the
      script); [textwrap.dedent] is the one of Python 3.13 and before. *)

From Stdlib Require Import ZArith Ascii String List Lia Bool.
From stdpp Require Import base option list strings gmap pretty.

Local Open Scope Z_scope.

(** ** Python built-ins used by the script *)

Module Py.

Definition nl : string := String "010"%char "".
Definition tab : string := String "009"%char "".
Definition dq : string := String "034"%char "".

(** [str.isspace] on one ASCII character: TAB..CR, FS..US and SPACE. *)
Definition isspace (c : ascii) : bool :=
  let n := N_of_ascii c in
  (((9 <=? n) && (n <=? 13)) || ((28 <=? n) && (n <=? 32)))%N.

Fixpoint lstrip (s : string) : string :=
  match s with
  | String c s' => if isspace c then lstrip s' else s
  | EmptyString => EmptyString
  end.

Fixpoint rstrip (s : string) : string :=
  match s with
  | String c s' =>
      match rstrip s' with
      | EmptyString => if isspace c then EmptyString else String c EmptyString
      | r => String c r
      end
  | EmptyString => EmptyString
  end.

(** [s.strip()] *)
Definition strip (s : string) : string := rstrip (lstrip s).

Fixpoint smap (f : ascii -> ascii) (s : string) : string :=
  match s with
  | String c s' => String (f c) (smap f s')
  | EmptyString => EmptyString
  end.

Definition lower_char (c : ascii) : ascii :=
  let n := N_of_ascii c in
  if ((65 <=? n) && (n <=? 90))%N then ascii_of_N (n + 32) else c.

Definition upper_char (c : ascii) : ascii :=
  let n := N_of_ascii c in
  if ((97 <=? n) && (n <=? 122))%N then ascii_of_N (n - 32) else c.

(** [s.lower()] and [s.upper()] *)
Definition lower : string -> string := smap lower_char.
Definition upper : string -> string := smap upper_char.

(** [s.replace(a, b)] for one-character [a] and [b] *)
Definition replace_char (a b : ascii) : string -> string :=
  smap (fun c => if Ascii.eqb c a then b else c).

(** [a in s] for a one-character [a] *)
Fixpoint contains (a : ascii) (s : string) : bool :=
  match s with
  | String c s' => Ascii.eqb c a || contains a s'
  | EmptyString => false
  end.

(** [s.split(a)] for a one-character separator: never the empty list. *)
Fixpoint split (a : ascii) (s : string) : list string :=
  match s with
  | String c s' =>
      if Ascii.eqb c a then EmptyString :: split a s'
      else match split a s' with
           | h :: t => String c h :: t
           | [] => [String c EmptyString]
           end
  | EmptyString => [EmptyString]
  end.

(** [sep.join(l)] *)
Fixpoint join (sep : string) (l : list string) : string :=
  match l with
  | [] => ""
  | [x] => x
  | x :: l' => x +:+ sep +:+ join sep l'
  end.

(** The concatenation of successive [f.write] arguments. *)
Fixpoint concat (l : list string) : string :=
  match l with
  | [] => ""
  | x :: l' => x +:+ concat l'
  end.

(** Truth value of a string: non-empty. *)
Definition truthy (s : string) : bool :=
  match s with EmptyString => false | _ => true end.

(** Truth value of an optional string ([None] is false). *)
Definition truthy_opt (o : option string) : bool :=
  match o with Some s => truthy s | None => false end.

Definition digit_of (c : ascii) : option Z :=
  let n := N_of_ascii c in
  if ((48 <=? n) && (n <=? 57))%N then Some (Z.of_N n - 48) else None.

(** Digits of a decimal literal after its sign: groups of digits separated
    by single underscores. [us] records that the previous character was an
    underscore. *)
Fixpoint int_digits (s : string) (acc : Z) (us : bool) : option Z :=
  match s with
  | EmptyString => if us then None else Some acc
  | String c s' =>
      if Ascii.eqb c "_"%char then
        if us then None else int_digits s' acc true
      else match digit_of c with
           | Some d => int_digits s' (10 * acc + d) false
           | None => None
           end
  end.

Definition int_unsigned (s : string) : option Z :=
  match s with
  | String c _ =>
      match digit_of c with
      | Some _ => int_digits s 0 false
      | None => None
      end
  | EmptyString => None
  end.

(** [int(s)] in base ten; [None] stands for [ValueError]. *)
Definition int (s : string) : option Z :=
  match strip s with
  | String "+"%char s' => int_unsigned s'
  | String "-"%char s' => Z.opp <$> int_unsigned s'
  | s' => int_unsigned s'
  end.

(** [str(n)] for an [int] *)
Definition str_int (n : Z) : string := pretty n.

(** Text of an optional value in an f-string: [None] prints as such. *)
Definition str_opt (o : option string) : string := default "None" o.

Definition hex_digit (n : N) : ascii :=
  if (n <? 10)%N then ascii_of_N (48 + n) else ascii_of_N (87 + n).

(** One character of [repr(s)], inside the quote character [q]. *)
Definition repr_char (q c : ascii) : string :=
  let n := N_of_ascii c in
  if Ascii.eqb c "\"%char then "\\"
  else if Ascii.eqb c q then String "\"%char (String q "")
  else if (n =? 9)%N then "\t"
  else if (n =? 10)%N then "\n"
  else if (n =? 13)%N then "\r"
  else if ((n <? 32) || (n =? 127))%N then
    "\x" +:+ String (hex_digit (n / 16)) (String (hex_digit (n mod 16)) "")
  else String c "".

Fixpoint repr_body (q : ascii) (s : string) : string :=
  match s with
  | String c s' => repr_char q c +:+ repr_body q s'
  | EmptyString => EmptyString
  end.

(** [repr(s)] of a string: double quotes only when [s] has a single quote
    and no double quote. *)
Definition repr_str (s : string) : string :=
  let q := if contains "'"%char s && negb (contains "034"%char s)
           then "034"%char else "'"%char in
  String q (repr_body q s) +:+ String q "".

(** Text of a list of strings in an f-string. *)
Definition repr_list (l : list string) : string :=
  "[" +:+ join ", " (map repr_str l) +:+ "]".

(** *** Floats

    A finite non-negative double is a pair [(m, e)] standing for
    [m * 2^e].  Only [1000 / speed], [round(x, 3)], halving and the text
    of the result are needed; each is computed exactly on integers. *)

Definition round_half_even (n d : Z) : Z :=
  let q := n / d in
  let r := n mod d in
  if 2 * r <? d then q
  else if d <? 2 * r then q + 1
  else if Z.even q then q else q + 1.

(** The fraction [n / d * 2^(-e)] as numerator and denominator. *)
Definition scale (n d e : Z) : Z * Z :=
  if 0 <=? e then (n, d * 2 ^ e) else (n * 2 ^ (- e), d).

(** The double nearest to [a / b] (ties to even), for [0 <= a], [0 < b]:
    [a / b] in true division. *)
Definition truediv (a b : Z) : Z * Z :=
  if a =? 0 then (0, 0)
  else
    let k := Z.log2 a - Z.log2 b in
    let '(n, d) := scale a b k in
    let fl := if d <=? n then k else k - 1 in
    let e := Z.max (fl - 52) (-1074) in
    let '(n', d') := scale a b e in
    (round_half_even n' d', e).

(** [round(x, 3)] counted in thousandths: the decimal with three places
    nearest to the exact value of [x], ties to even. *)
Definition round3 (x : Z * Z) : Z :=
  let '(m, e) := x in
  let '(n, d) := scale (m * 1000) 1 (- e) in
  round_half_even n d.

(** The double that [round(x, 3)] returns. *)
Definition of_thousandths (n : Z) : Z * Z := truediv n 1000.

(** [x / 2] for a double that is zero or at least [0.001]. *)
Definition half (x : Z * Z) : Z * Z :=
  let '(m, e) := x in if m =? 0 then (0, 0) else (m, e - 1).

Fixpoint rstrip_zeros (s : string) : string :=
  match s with
  | String c s' =>
      match rstrip_zeros s' with
      | EmptyString => if Ascii.eqb c "0"%char then EmptyString else String c EmptyString
      | r => String c r
      end
  | EmptyString => EmptyString
  end.

(** [repr] of the double nearest to [n / 1000], for [0 <= n]: the decimal
    itself, with at least one digit after the point. *)
Definition repr_thousandths (n : Z) : string :=
  let f := n mod 1000 in
  let digits :=
    str_int (f / 100) +:+ str_int (f / 10 mod 10) +:+ str_int (f mod 10) in
  let frac := match rstrip_zeros digits with
              | EmptyString => "0"
              | r => r
              end in
  str_int (n / 1000) +:+ "." +:+ frac.

(** *** [textwrap.dedent] (the regular-expression version, up to 3.13) *)

Definition is_blank (c : ascii) : bool :=
  Ascii.eqb c " "%char || Ascii.eqb c "009"%char.

Fixpoint all_blank (s : string) : bool :=
  match s with
  | String c s' => is_blank c && all_blank s'
  | EmptyString => true
  end.

Fixpoint leading_blank (s : string) : string :=
  match s with
  | String c s' => if is_blank c then String c (leading_blank s') else EmptyString
  | EmptyString => EmptyString
  end.

Fixpoint common_prefix (a b : string) : string :=
  match a, b with
  | String x a', String y b' =>
      if Ascii.eqb x y then String x (common_prefix a' b') else EmptyString
  | _, _ => EmptyString
  end.

(** [s] without the prefix [p], or [s] itself when it does not start
    with [p]. *)
Fixpoint remove_prefix (p s : string) : option string :=
  match p, s with
  | EmptyString, _ => Some s
  | String x p', String y s' =>
      if Ascii.eqb x y then remove_prefix p' s' else None
  | String _ _, EmptyString => None
  end.

Definition dedent (text : string) : string :=
  let lines := map (fun l => if all_blank l then "" else l) (split "010"%char text) in
  let indents := map leading_blank (List.filter truthy lines) in
  match indents with
  | [] => join nl lines
  | i :: rest =>
      let margin := fold_left common_prefix rest i in
      if truthy margin
      then join nl (map (fun l => default l (remove_prefix margin l)) lines)
      else join nl lines
  end.

(** *** [os.path.join] (POSIX) *)

Definition startswith_sep (s : string) : bool :=
  match s with String "/"%char _ => true | _ => false end.

Fixpoint endswith_sep (s : string) : bool :=
  match s with
  | String c EmptyString => Ascii.eqb c "/"%char
  | String _ s' => endswith_sep s'
  | EmptyString => false
  end.

Definition path_join2 (path b : string) : string :=
  if startswith_sep b then b
  else if negb (truthy path) || endswith_sep path then path +:+ b
  else path +:+ "/" +:+ b.

Definition path_join (a : string) (p : list string) : string :=
  fold_left path_join2 p a.

End Py.

Import Py.

(** ** Configuration model *)

(** One parsed [INTF] row: the dictionary the parser builds, whose six
    keys are always present; [rst] and [rst_type] may hold [None]. *)
Record interface := Interface {
  name : string;
  mode : string;
  speed : string;
  clk : string;
  rst : option string;
  rst_type : option string
}.

(** The [config] dictionary: [dut_name] and [num_interfaces] are present
    only when a row set them. *)
Record config := Config {
  dut_name : option string;
  num_interfaces : option Z;
  interfaces : list interface
}.

Inductive exn := ValueError.

Inductive outcome (A : Type) :=
| Ok (a : A)
| Raise (e : exn).
Arguments Ok {A} a.
Arguments Raise {A} e.

(** ** The parser: [read_interface_csv], from the rows on *)

(** [row = [cell.strip() for cell in row if cell.strip()]] *)
Definition clean_row (row : list string) : list string :=
  map strip (List.filter (fun cell => truthy (strip cell)) row).

(** [key = row[0].upper().replace(" ", "_")] *)
Definition row_key (cell : string) : string :=
  replace_char " "%char "_"%char (upper cell).

(** The optional reset information of an [INTF] row, from [row[5:]]. *)
Definition reset_info (rest : list string) : option string * option string :=
  match rest with
  | r5 :: _ =>
      if contains ","%char r5 then
        match split ","%char r5 with
        | f0 :: f1 :: _ => (Some (strip f0), Some (strip f1))
        | f0 :: [] => (Some (strip f0), Some "1")
        | [] => (None, None)
        end
      else (Some (strip r5), Some "1")
  | [] => (None, None)
  end.

Definition make_interface (r1 r2 r3 r4 : string) (rest : list string) : interface :=
  let '(r, t) := reset_info rest in
  {| name := r1; mode := r2; speed := r3; clk := r4; rst := r; rst_type := t |}.

(** One iteration of the loop over the rows, on the [config] dictionary
    under construction and the [interfaces] list. *)
Definition read_row (raw : list string) (st : config) : outcome config :=
  match clean_row raw with
  | [] => Ok st
  | k :: rest =>
      let key := row_key k in
      match rest with
      | r1 :: rest1 =>
          if String.eqb key "DUT_NAME" then
            Ok {| dut_name := Some r1;
                  num_interfaces := num_interfaces st;
                  interfaces := interfaces st |}
          else if String.eqb key "NUM_INTF" then
            match int r1 with
            | Some n => Ok {| dut_name := dut_name st;
                              num_interfaces := Some n;
                              interfaces := interfaces st |}
            | None => Raise ValueError
            end
          else if String.eqb key "INTF" then
            match rest1 with
            | r2 :: r3 :: r4 :: rest4 =>
                Ok {| dut_name := dut_name st;
                      num_interfaces := num_interfaces st;
                      interfaces := interfaces st ++ [make_interface r1 r2 r3 r4 rest4] |}
            | _ => Ok st
            end
          else Ok st
      | [] => Ok st
      end
  end.

Fixpoint read_rows (rows : list (list string)) (st : config) : outcome config :=
  match rows with
  | [] => Ok st
  | raw :: rows' =>
      match read_row raw st with
      | Ok st' => read_rows rows' st'
      | Raise e => Raise e
      end
  end.

Definition read_interface_csv (rows : list (list string)) : outcome config :=
  read_rows rows {| dut_name := None; num_interfaces := None; interfaces := [] |}.

(** ** Effects of the script

    The script never reads back what it wrote, so each function is the
    ordered list of the effects it performs.  A [with open(p, "w")] block
    is one [Write] with the concatenation of its [f.write] arguments. *)

Inductive op :=
| Write (path content : string)   (* open(path, "w"), write, close *)
| Append (path content : string)  (* open(path, "a"), write, close *)
| Print (text : string).          (* print(text) *)

Record world := World {
  files : gmap string string;
  console : list string
}.

Definition exec_op (w : world) (o : op) : world :=
  match o with
  | Write p c => {| files := <[p := c]> (files w); console := console w |}
  | Append p c =>
      {| files := <[p := default "" (files w !! p) +:+ c]> (files w);
         console := console w |}
  | Print t => {| files := files w; console := console w ++ [t] |}
  end.

Definition exec (ops : list op) (w : world) : world :=
  fold_left exec_op ops w.

Definition rule : string :=
  "----------------------------------------------------------------------------".

(** [s and s.lower() != "nil"] *)
Definition defined (s : string) : bool :=
  truthy s && negb (String.eqb (lower s) "nil").

Section Script.

(** [os.getcwd()] *)
Variable cwd : string.

Definition readme_path : string := path_join cwd ["verif"; "SIM"; "README.txt"].

(** Prints of [create_uvm_tb_dirs]; the directories themselves are not
    recorded. *)
Definition create_uvm_tb_dirs : list op :=
  let verif_dir := path_join cwd ["verif"] in
  let dirs_to_create :=
    [ path_join verif_dir ["TOP"];
      path_join verif_dir ["TEST_LIB"];
      path_join verif_dir ["SEQ_LIB"];
      path_join verif_dir ["ENV"];
      path_join verif_dir ["ENV"; "AGENTS"];
      path_join verif_dir ["ENV"; "SBD"];
      path_join verif_dir ["RAL"];
      path_join verif_dir ["SIM"] ] in
  map (fun d => Print ("Created: " +:+ d)) dirs_to_create.

(** ** Top-level wiring generator: [generate_top_sv_from_cfg] *)

(** Body of the loop "Signal Declarations". *)
Definition top_signal_decl (intf : interface) : list string :=
  (if defined (clk intf) then ["  logic " +:+ clk intf +:+ ";"] else [])
  ++ match rst intf with
     | Some r => if defined r then ["  logic " +:+ r +:+ ";"] else []
     | None => []
     end.

(** Body of the loop "Clock Generators"; a failing [int] is the caught
    [ValueError]. *)
Definition top_clock_gen (intf : interface) : list string :=
  if negb (truthy (clk intf)) || String.eqb (lower (clk intf)) "nil"
     || negb (truthy (speed intf)) || String.eqb (lower (speed intf)) "nil"
  then []
  else match int (speed intf) with
       | None => []
       | Some speed =>
           if speed <=? 0 then []
           else
             let period_ns := round3 (truediv 1000 speed) in
             let half_period := round3 (half (of_thousandths period_ns)) in
             [ "  // " +:+ clk intf +:+ " clock generation at " +:+ str_int speed
                 +:+ " MHz (~" +:+ repr_thousandths period_ns +:+ "ns)";
               "  initial " +:+ clk intf +:+ " = 0;";
               "  always #" +:+ repr_thousandths half_period +:+ " " +:+ clk intf
                 +:+ " = ~" +:+ clk intf +:+ ";" +:+ nl ]
       end.

(** Body of the loop "Reset Pulses". *)
Definition top_reset_pulse (intf : interface) : list string :=
  if negb (truthy (clk intf)) || String.eqb (lower (clk intf)) "nil" then []
  else match rst intf with
       | None => []
       | Some rst =>
           if negb (truthy rst) || String.eqb (lower rst) "nil" then []
           else if negb (truthy_opt (rst_type intf)) then []
           else
             let active_high := bool_decide (rst_type intf = Some "1") in
             let assert_val := if active_high then "1" else "0" in
             let deassert_val := if active_high then "0" else "1" in
             [ "  // " +:+ rst +:+ " reset pulse using @" +:+ clk intf +:+ ", active "
                 +:+ (if active_high then "high" else "low");
               "  initial begin";
               "    " +:+ rst +:+ " = " +:+ assert_val +:+ ";";
               "    @(posedge " +:+ clk intf +:+ ");";
               "    " +:+ rst +:+ " = " +:+ deassert_val +:+ ";";
               "  end" +:+ nl ]
       end.

Definition top_iface_type (intf : interface) : string := lower (name intf) +:+ "_if".
Definition top_inst_name (intf : interface) : string := lower (name intf) +:+ "_pif".

(** Body of the loop "Interface Instantiations". *)
Definition top_intf_inst (intf : interface) : list string :=
  if defined (name intf)
  then [ "  " +:+ top_iface_type intf +:+ " " +:+ top_inst_name intf
           +:+ "();  // TODO: Create " +:+ name intf +:+ " interface files" ]
  else [].

(** Body of the loop "Pass Interfaces to UVM via uvm_config_db". *)
Definition top_config_db_set (intf : interface) : list string :=
  if defined (name intf)
  then [ "    uvm_config_db#(virtual " +:+ top_iface_type intf +:+ ")::set(null, "
           +:+ dq +:+ "*" +:+ dq +:+ ", " +:+ dq +:+ "vif" +:+ dq +:+ ", "
           +:+ top_inst_name intf +:+ ");" ]
  else [].

(** [config.get("dut_name", "dut")] *)
Definition top_dut_name (cfg : config) : string := default "dut" (dut_name cfg).

Definition top_test_name (cfg : config) : string :=
  lower (top_dut_name cfg) +:+ "_base_test".

(** The list [lines] when [top.sv] is written. *)
Definition top_lines (cfg : config) : list string :=
  ["module top;" +:+ nl]
  ++ flat_map top_signal_decl (interfaces cfg)
  ++ [""]
  ++ flat_map top_clock_gen (interfaces cfg)
  ++ flat_map top_reset_pulse (interfaces cfg)
  ++ ["  // Interface Instantiations"]
  ++ flat_map top_intf_inst (interfaces cfg)
  ++ [""]
  ++ [ "  // DUT instantiation";
       "  " +:+ top_dut_name cfg +:+ " u_" +:+ lower (top_dut_name cfg) +:+ " (";
       "    // TODO: Connect ports using pif handles ";
       "  );" +:+ nl ]
  ++ [ "  // UVM run_test() call";
       "  initial begin";
       "    run_test(" +:+ dq +:+ top_test_name cfg +:+ dq +:+ ");";
       "  end" +:+ nl ]
  ++ [ "  // Passing interfaces to UVM via uvm_config_db";
       "  initial begin" ]
  ++ flat_map top_config_db_set (interfaces cfg)
  ++ ["  end" +:+ nl]
  ++ ["endmodule"].

Definition str_num_interfaces (cfg : config) : string :=
  str_opt (str_int <$> num_interfaces cfg).

Definition top_readme_clk (intf : interface) : list string :=
  if defined (clk intf)
  then [ "    • " +:+ clk intf +:+ "  ("
           +:+ (if truthy (speed intf) then speed intf +:+ " MHz" else "default")
           +:+ ")" ]
  else [].

Definition top_readme_rst (intf : interface) : list string :=
  match rst intf with
  | Some rst =>
      if truthy rst && truthy (clk intf)
      then
        let type_str :=
          if bool_decide (rst_type intf = Some "1") then "active high"
          else if bool_decide (rst_type intf = Some "0") then "active low"
          else "unspecified" in
        [ "    • " +:+ rst +:+ "  (" +:+ type_str +:+ ") driven by " +:+ clk intf ]
      else []
  | None => []
  end.

Definition top_readme_inst (intf : interface) : list string :=
  if truthy (name intf)
  then [ "    • " +:+ lower (name intf) +:+ "_if " +:+ lower (name intf) +:+ "_if_inst();" ]
  else [].

Definition top_readme_connect (intf : interface) : list string :=
  if truthy (name intf)
  then [ "    • Connect `" +:+ lower (name intf) +:+ "_if_inst` to DUT" ]
  else [].

(** The list [readme_lines]. *)
Definition top_readme_lines (cfg : config) : list string :=
  let intfs := interfaces cfg in
  let dut_name := top_dut_name cfg in
  [ "top.sv generation summary" +:+ nl;
    "DUT Name             : " +:+ dut_name;
    "Number of Interfaces : " +:+ str_num_interfaces cfg +:+ nl;
    "top.sv contents:";
    "- `module top;` with DUT `" +:+ dut_name +:+ "` instantiated" ]
  ++ (if existsb (fun intf => truthy (clk intf)) intfs
      then "- Clock signal declarations and generation:"
             :: flat_map top_readme_clk intfs
      else [])
  ++ (if existsb (fun intf => truthy_opt (rst intf)) intfs
      then "- Reset pulse logic based on @posedge clk:"
             :: flat_map top_readme_rst intfs
      else [])
  ++ ["- Interface instantiations:"]
  ++ flat_map top_readme_inst intfs
  ++ [ "- uvm_config_db set() calls to pass virtual interfaces";
       "- run_test(" +:+ dq +:+ lower dut_name +:+ "_base_test" +:+ dq
         +:+ ")` to launch simulation" +:+ nl;
       "TODOs for User To code in top.sv:";
       "- Connect interface instances to DUT ports:" ]
  ++ flat_map top_readme_connect intfs
  ++ [ "- Define SystemVerilog interface files (" +:+ "*.sv)";
       nl +:+ "-----------------------------------------------------------" ].

Definition top_sv_path : string := path_join cwd ["verif"; "TOP"; "top.sv"].

Definition generate_top_sv_from_cfg (cfg : config) : list op :=
  [ Write top_sv_path (join nl (top_lines cfg));
    Print ("Generated: " +:+ top_sv_path +:+ nl);
    Write readme_path (join nl (top_readme_lines cfg));
    Print "Refer to README.txt for a detailed summary of top.sv file:";
    Print ("   → " +:+ readme_path);
    Print rule ].

(** ** Test generator: [generate_uvm_test] *)

(** [config.get("dut_name", "").strip().lower()], shared by the test,
    environment and sequence generators. *)
Definition stem (cfg : config) : string :=
  lower (strip (default "" (dut_name cfg))).

Definition test_content (test_class env_class seq_class : string) : string :=
  dedent (join nl
    [ tab +:+ " // ----------------------------------------------------";
      tab +:+ " // UVM Test: " +:+ test_class;
      tab +:+ " // ----------------------------------------------------";
      tab +:+ " class " +:+ test_class +:+ " extends uvm_test;";
      tab +:+ "   `uvm_component_utils(" +:+ test_class +:+ ")";
      tab +:+ " ";
      tab +:+ "   // Environment handle";
      tab +:+ "   " +:+ env_class +:+ " " +:+ env_class +:+ "_h;";
      tab +:+ " ";
      tab +:+ "   function new(string name = " +:+ dq +:+ test_class +:+ dq +:+ ", uvm_component parent = null);";
      tab +:+ "     super.new(name, parent);";
      tab +:+ "   endfunction";
      tab +:+ " ";
      tab +:+ "   virtual function void build_phase(uvm_phase phase);";
      tab +:+ "     super.build_phase(phase);";
      tab +:+ "  " +:+ tab +:+ env_class +:+ "_h = " +:+ env_class +:+ "::type_id::create(" +:+ dq +:+ env_class +:+ "_h" +:+ dq +:+ ", this);";
      tab +:+ "   endfunction";
      tab +:+ " ";
      tab +:+ "   virtual task run_phase(uvm_phase phase);";
      tab +:+ "     " +:+ seq_class +:+ " seq = " +:+ seq_class +:+ "::type_id::create(" +:+ dq +:+ "seq" +:+ dq +:+ ");";
      tab +:+ tab +:+ "  `uvm_info(get_full_name()," +:+ dq +:+ "Run_phase started" +:+ dq +:+ ", UVM_NONE)";
      tab +:+ " ";
      tab +:+ "     phase.raise_objection(this);";
      tab +:+ " ";
      tab +:+ "     // TODO: Update sequencer path if not " +:+ env_class +:+ "_h.sqr";
      tab +:+ "     seq.start(" +:+ env_class +:+ "_h.sqr);";
      tab +:+ " ";
      tab +:+ "  " +:+ tab +:+ "phase.phase_done.set_drain_time(this,1000);";
      tab +:+ "  " +:+ tab +:+ "phase.drop_objection(this);";
      "";
      tab +:+ "  " +:+ tab +:+ "`uvm_info(get_full_name()," +:+ dq +:+ "Run_phase End" +:+ dq +:+ ", UVM_NONE)";
      tab +:+ " ";
      tab +:+ "   endtask";
      tab +:+ " ";
      tab +:+ " endclass : " +:+ test_class;
      "    " ]).

Definition test_summary (test_class env_class seq_class : string) : string :=
  dedent (join nl
    [ "        ";
      "";
      "        " +:+ test_class +:+ ".sv Summary";
      "";
      "        Class Structure:";
      "        - class " +:+ test_class +:+ " extends uvm_test";
      "        - Factory registered using `uvm_component_utils(" +:+ test_class +:+ ")`";
      "        - build_phase(): creates `" +:+ env_class +:+ "`";
      "        - run_phase():";
      "            - Creates `" +:+ seq_class +:+ "`";
      "            - Raises/drops uvm_objection";
      "            - Calls `start()` on `" +:+ env_class +:+ "_h.sqr`";
      "        ------------------------------------------------------------------------";
      tab +:+ tab ]).

Definition test_file_path (test_class : string) : string :=
  path_join cwd ["verif"; "TEST_LIB"; test_class +:+ ".sv"].

Definition generate_uvm_test (cfg : config) : list op :=
  let dut_name := stem cfg in
  if negb (truthy dut_name)
  then [ Print "No DUT name found in configuration. Skipping UVM test generation." ]
  else
    let test_class := dut_name +:+ "_base_test" in
    let env_class := dut_name +:+ "_env" in
    let seq_class := dut_name +:+ "_base_seq" in
    [ Write (test_file_path test_class) (test_content test_class env_class seq_class);
      Print ("Generated: " +:+ test_file_path test_class);
      Append readme_path (test_summary test_class env_class seq_class);
      Print (nl +:+ "Refer to README.txt for a detailed summary of top.sv file:");
      Print ("   → " +:+ readme_path);
      Print rule ].

(** ** Environment generator: [generate_uvm_env] *)

(** [name = intf.get("name", "if").lower()] and the names derived from it *)
Definition env_name (intf : interface) : string := lower (name intf).
Definition env_agent_class (intf : interface) : string := env_name intf +:+ "_agent".
Definition env_inst (intf : interface) : string := env_agent_class intf +:+ "_h".
Definition env_ap_handle (intf : interface) : string := env_name intf +:+ "_ap_h".

(** Bodies of the three loops over the interfaces. *)
Definition env_agent_decl (intf : interface) : string :=
  tab +:+ env_agent_class intf +:+ " " +:+ env_inst intf +:+ ";" +:+ nl.

Definition env_agent_create (intf : interface) : string :=
  tab +:+ tab +:+ env_inst intf +:+ " = " +:+ env_agent_class intf
    +:+ "::type_id::create(" +:+ dq +:+ env_inst intf +:+ dq +:+ ", this);" +:+ nl.

Definition env_agent_connect (sbd_class_inst_name : string) (intf : interface)
  : list string :=
  [ "  " +:+ tab +:+ tab +:+ "//TODO - Check the SBD connection" +:+ nl;
    tab +:+ tab +:+ "//" +:+ env_inst intf +:+ "." +:+ env_name intf +:+ "_h."
      +:+ env_ap_handle intf +:+ ".connect(" +:+ sbd_class_inst_name
      +:+ ".analysis_export);" +:+ nl ].

(** The successive [f.write] arguments of the environment file. *)
Definition env_chunks (dut_name : string) (interfaces : list interface) : list string :=
  let env_class := dut_name +:+ "_env" in
  let sbd_class_name := dut_name +:+ "_sbd" in
  let sbd_class_inst_name := sbd_class_name +:+ "_h" in
  let sbd_inst := sbd_class_name +:+ " " +:+ sbd_class_inst_name in
  [ "// ----------------------------------------------------" +:+ nl;
    "// UVM Environment: " +:+ env_class +:+ nl;
    "// ----------------------------------------------------" +:+ nl;
    "class " +:+ env_class +:+ " extends uvm_env;" +:+ nl;
    tab +:+ "`uvm_component_utils(" +:+ env_class +:+ ")" +:+ nl;
    nl +:+ tab +:+ "//Agents instantiation" +:+ nl ]
  ++ map env_agent_decl interfaces
  ++ [ nl +:+ tab +:+ "//Scoreboard instantiation" +:+ nl;
       tab +:+ "//" +:+ sbd_inst +:+ ";" +:+ nl +:+ nl;
       tab +:+ "function new(string name = " +:+ dq +:+ env_class +:+ dq
         +:+ ", uvm_component parent = null);" +:+ nl;
       tab +:+ tab +:+ "super.new(name, parent);" +:+ nl;
       tab +:+ "endfunction" +:+ nl +:+ nl;
       tab +:+ "virtual function void build_phase(uvm_phase phase);" +:+ nl;
       tab +:+ tab +:+ "super.build_phase(phase);" +:+ nl ]
  ++ map env_agent_create interfaces
  ++ [ tab +:+ tab +:+ "//" +:+ sbd_class_inst_name +:+ " = " +:+ sbd_class_name
         +:+ "::type_id::create(" +:+ dq +:+ sbd_class_inst_name +:+ dq +:+ ", this);" +:+ nl;
       tab +:+ "endfunction" +:+ nl +:+ nl;
       tab +:+ "virtual function void connect_phase(uvm_phase phase);" +:+ nl ]
  ++ flat_map (env_agent_connect sbd_class_inst_name) interfaces
  ++ [ tab +:+ "endfunction" +:+ nl +:+ nl;
       "endclass : " +:+ env_class +:+ nl ].

Definition env_summary (env_class : string) (interfaces : list interface) : string :=
  dedent (join nl
    [ "        ";
      " " +:+ env_class +:+ ".sv Summary";
      "";
      " Class Structure:";
      " - class " +:+ env_class +:+ " extends uvm_env";
      " - Factory registration using `uvm_component_utils`";
      " - One agent per interface: " +:+ repr_list (map name interfaces);
      " - One scoreboard instance: sbd";
      " - User need to Implement SBD file manually as of now. Script might be modified in future for SBD generation.";
      "";
      " Instantiated Components:";
      join nl (map (fun intf => "        - " +:+ lower (name intf) +:+ "_agent ("
                                  +:+ upper (name intf) +:+ " protocol)") interfaces);
      " - m_sbd : scoreboard";
      "";
      " TODOs for User:";
      " - check the agent to SBD connection";
      " ------------------------------------------------------------------------";
      "    " ]).

Definition env_file_path (env_class : string) : string :=
  path_join cwd ["verif"; "ENV"; env_class +:+ ".sv"].

Definition generate_uvm_env (cfg : config) : list op :=
  let dut_name := stem cfg in
  let interfaces := interfaces cfg in
  if negb (truthy dut_name)
  then [ Print "No DUT name provided. Cannot generate env." ]
  else
    let env_class := dut_name +:+ "_env" in
    [ Write (env_file_path env_class) (concat (env_chunks dut_name interfaces));
      Print ("Generated : " +:+ env_file_path env_class);
      Append readme_path (env_summary env_class interfaces);
      Print (nl +:+ "Refer to README.txt for a detailed summary of top.sv file:");
      Print ("   → " +:+ readme_path);
      Print rule ].

(** ** Agent and component generator: [create_full_agent_and_components] *)

(** [name = intf.get("name", "").strip().lower()] and the names derived
    from it *)
Definition agent_name (intf : interface) : string := lower (strip (name intf)).
Definition agent_drv_name (intf : interface) : string := agent_name intf +:+ "_drv".
Definition agent_sqr_name (intf : interface) : string := agent_name intf +:+ "_sqr".
Definition agent_mon_name (intf : interface) : string := agent_name intf +:+ "_mon".
Definition agent_cov_name (intf : interface) : string := agent_name intf +:+ "_cov".
Definition agent_agent_class (intf : interface) : string := agent_name intf +:+ "_agent".
Definition agent_iface_type (intf : interface) : string := agent_name intf +:+ "_if".
Definition agent_tx_type (intf : interface) : string := agent_name intf +:+ "_tx".
Definition agent_ap_handle (intf : interface) : string := agent_name intf +:+ "_ap_h".
Definition agent_vif_handle (intf : interface) : string := agent_name intf +:+ "_vif".

(** [mode = intf.get("mode", "").strip().upper()] *)
Definition agent_mode (intf : interface) : string := upper (strip (mode intf)).

(** The successive [f.write] arguments of the agent class file. *)
Definition agent_chunks (intf : interface) : list string :=
  let mode := agent_mode intf in
  let agent_class := agent_agent_class intf in
  let drv_name := agent_drv_name intf in
  let drv_inst := drv_name +:+ "_h" in
  let sqr_name := agent_sqr_name intf in
  let sqr_inst := sqr_name +:+ "_h" in
  let mon_name := agent_mon_name intf in
  let mon_inst := mon_name +:+ "_h" in
  let cov_name := agent_cov_name intf in
  let cov_inst := cov_name +:+ "_h" in
  [ "// ----------------------------------------------------" +:+ nl;
    "//UVM agent: " +:+ agent_class +:+ nl;
    "//----------------------------------------------------" +:+ nl;
    "class " +:+ agent_class +:+ " extends uvm_agent;" +:+ nl;
    "`uvm_component_utils(" +:+ agent_class +:+ ")" +:+ nl +:+ nl;
    "//Sub-Component Instantiation" +:+ nl ]
  ++ (if String.eqb mode "M"
      then [ drv_name +:+ " " +:+ drv_inst +:+ ";" +:+ nl;
             sqr_name +:+ " " +:+ sqr_inst +:+ ";" +:+ nl ]
      else [])
  ++ [ mon_name +:+ " " +:+ mon_inst +:+ ";" +:+ nl;
       cov_name +:+ " " +:+ cov_inst +:+ ";" +:+ nl +:+ nl;
       "function new(string name = " +:+ dq +:+ agent_class +:+ dq
         +:+ ", uvm_component parent = null);" +:+ nl;
       "  super.new(name, parent);" +:+ nl;
       "endfunction" +:+ nl +:+ nl;
       "virtual function void build_phase(uvm_phase phase);" +:+ nl;
       "  super.build_phase(phase);" +:+ nl;
       "  " +:+ mon_inst +:+ " = " +:+ mon_name +:+ "::type_id::create(" +:+ dq
         +:+ mon_inst +:+ dq +:+ ", this);" +:+ nl;
       "  " +:+ cov_inst +:+ " = " +:+ cov_name +:+ "::type_id::create(" +:+ dq
         +:+ cov_inst +:+ dq +:+ ", this);" +:+ nl ]
  ++ (if String.eqb mode "M"
      then [ "  " +:+ drv_inst +:+ " = " +:+ drv_name +:+ "::type_id::create(" +:+ dq
               +:+ drv_inst +:+ dq +:+ ", this);" +:+ nl;
             "  " +:+ sqr_inst +:+ " = " +:+ sqr_name +:+ "::type_id::create(" +:+ dq
               +:+ sqr_inst +:+ dq +:+ ", this);" +:+ nl ]
      else [])
  ++ [ "endfunction" +:+ nl +:+ nl;
       "virtual function void connect_phase(uvm_phase phase);" +:+ nl;
       "  super.connect_phase(phase);" +:+ nl ]
  ++ (if String.eqb mode "M"
      then [ "  " +:+ drv_inst +:+ ".seq_item_port.connect(" +:+ sqr_inst
               +:+ ".seq_item_export);" +:+ nl ]
      else [])
  ++ [ "  " +:+ mon_inst +:+ "." +:+ agent_ap_handle intf +:+ ".connect(" +:+ cov_inst
         +:+ ".analysis_export);" +:+ nl;
       "endfunction" +:+ nl +:+ nl;
       "endclass : " +:+ agent_class +:+ nl ].

(** The driver class body. *)
Definition drv_chunks (intf : interface) (class_name base_class : string) : list string :=
  [ "class " +:+ class_name +:+ " extends " +:+ base_class +:+ "#("
      +:+ agent_tx_type intf +:+ ");" +:+ nl;
    "`uvm_component_utils(" +:+ class_name +:+ ")" +:+ nl +:+ nl;
    "virtual " +:+ agent_iface_type intf +:+ " " +:+ agent_vif_handle intf +:+ ";" +:+ nl +:+ nl;
    "function new(string name = " +:+ dq +:+ class_name +:+ dq
      +:+ ", uvm_component parent = null);" +:+ nl;
    "  super.new(name, parent);" +:+ nl;
    "endfunction : new" +:+ nl +:+ nl;
    "virtual function void build_phase(uvm_phase phase);" +:+ nl;
    "  super.build_phase(phase);" +:+ nl;
    "  if(!uvm_config_db#(virtual " +:+ agent_iface_type intf +:+ ")::get(this,"
      +:+ dq +:+ dq +:+ "," +:+ dq +:+ "vif" +:+ dq +:+ "," +:+ agent_vif_handle intf
      +:+ "))" +:+ nl;
    "     `uvm_error(get_full_name()," +:+ dq
      +:+ "FAILED TO RETRIVE VIF HANDLE FROM CONFIG_DB" +:+ dq +:+ ")" +:+ nl;
    "endfunction : build_phase" +:+ nl +:+ nl;
    "virtual task run_phase(uvm_phase phase);" +:+ nl;
    "`uvm_info(get_full_name()," +:+ dq +:+ "run_phase START" +:+ dq +:+ ",UVM_NONE)" +:+ nl;
    "  forever begin" +:+ nl;
    "    seq_item_port.get_next_item(req);" +:+ nl;
    "    //req.print();" +:+ nl;
    "    drive_tx(req);" +:+ nl;
    "    seq_item_port.item_done();" +:+ nl;
    "  end" +:+ nl;
    "endtask : run_phase" +:+ nl +:+ nl;
    "task drive_tx(" +:+ agent_tx_type intf +:+ " tx);" +:+ nl;
    "  // TODO: Implement " +:+ agent_name intf +:+ " specific drive logic functionality" +:+ nl;
    "endtask : drive_tx" +:+ nl +:+ nl ].

(** The monitor class body. *)
Definition mon_chunks (intf : interface) (class_name base_class : string) : list string :=
  [ "class " +:+ class_name +:+ " extends " +:+ base_class +:+ ";" +:+ nl;
    "`uvm_component_utils(" +:+ class_name +:+ ")" +:+ nl +:+ nl;
    "virtual " +:+ agent_iface_type intf +:+ " " +:+ agent_vif_handle intf +:+ ";" +:+ nl +:+ nl;
    "uvm_analysis_port#(" +:+ agent_tx_type intf +:+ ") " +:+ agent_ap_handle intf
      +:+ ";" +:+ nl +:+ nl;
    agent_tx_type intf +:+ " tx;" +:+ nl +:+ nl;
    "function new(string name = " +:+ dq +:+ class_name +:+ dq
      +:+ ", uvm_component parent = null);" +:+ nl;
    "  super.new(name, parent);" +:+ nl;
    "endfunction : new" +:+ nl +:+ nl;
    "virtual function void build_phase(uvm_phase phase);" +:+ nl;
    "  super.build_phase(phase);" +:+ nl;
    "  tx = " +:+ agent_tx_type intf +:+ "::type_id::create(" +:+ dq +:+ "tx" +:+ dq
      +:+ ");" +:+ nl;
    "  " +:+ agent_ap_handle intf +:+ " = new(" +:+ dq +:+ agent_ap_handle intf +:+ dq
      +:+ ",this);" +:+ nl;
    "  if(!uvm_config_db#(virtual " +:+ agent_iface_type intf +:+ ")::get(this,"
      +:+ dq +:+ dq +:+ "," +:+ dq +:+ "vif" +:+ dq +:+ "," +:+ agent_vif_handle intf
      +:+ "))" +:+ nl;
    "     `uvm_error(get_full_name()," +:+ dq
      +:+ "FAILED TO RETRIVE VIF HANDLE FROM CONFIG_DB" +:+ dq +:+ ")" +:+ nl;
    "endfunction : build_phase" +:+ nl +:+ nl;
    "virtual task run_phase(uvm_phase phase);" +:+ nl;
    "`uvm_info(get_full_name()," +:+ dq +:+ "run_phase START" +:+ dq +:+ ",UVM_NONE)" +:+ nl;
    "  forever begin" +:+ nl;
    "    //TODO: Implement " +:+ agent_name intf +:+ " specific mon logic functionality" +:+ nl;
    "    " +:+ agent_ap_handle intf +:+ ".write(tx);" +:+ nl;
    "  end" +:+ nl;
    "endtask : run_phase" +:+ nl +:+ nl ].

(** The coverage subscriber class body. *)
Definition cov_chunks (intf : interface) (class_name base_class : string) : list string :=
  [ "class " +:+ class_name +:+ " extends " +:+ base_class +:+ "#("
      +:+ agent_tx_type intf +:+ ");" +:+ nl;
    "`uvm_component_utils(" +:+ class_name +:+ ")" +:+ nl +:+ nl;
    agent_tx_type intf +:+ " tx;" +:+ nl +:+ nl;
    "covergroup cg;" +:+ nl;
    "  //TODO - Implement protocol specific FC" +:+ nl +:+ nl;
    "endgroup" +:+ nl +:+ nl;
    "function new(string name = " +:+ dq +:+ class_name +:+ dq
      +:+ ", uvm_component parent = null);" +:+ nl;
    "  super.new(name, parent);" +:+ nl;
    "  cg = new();" +:+ nl;
    "endfunction : new" +:+ nl +:+ nl;
    "virtual function void write(T t);" +:+ nl;
    "  $cast(tx,t);" +:+ nl;
    "  cg.sample();" +:+ nl;
    "endfunction : write" +:+ nl +:+ nl ].

(** The successive [cf.write] arguments of one component file. *)
Definition component_chunks (intf : interface) (suffix base_class : string) : list string :=
  let class_name := agent_name intf +:+ "_" +:+ suffix in
  [ "// ----------------------------------------------------" +:+ nl;
    "//UVM " +:+ suffix +:+ ": " +:+ class_name +:+ nl;
    "//----------------------------------------------------" +:+ nl ]
  ++ (if String.eqb suffix "sqr"
      then [ "typedef " +:+ base_class +:+ "#(" +:+ agent_tx_type intf +:+ ") "
               +:+ class_name +:+ ";" ]
      else
        (if String.eqb suffix "drv" then drv_chunks intf class_name base_class else [])
        ++ (if String.eqb suffix "mon" then mon_chunks intf class_name base_class else [])
        ++ (if String.eqb suffix "cov" then cov_chunks intf class_name base_class else [])
        ++ [ "endclass : " +:+ class_name +:+ nl ]).

(** The dictionary [components], in insertion order. *)
Definition components (mode : string) : list (string * string) :=
  [ ("mon", "uvm_monitor"); ("cov", "uvm_subscriber") ]
  ++ (if String.eqb mode "M"
      then [ ("drv", "uvm_driver"); ("sqr", "uvm_sequencer") ]
      else []).

Definition agents_dir : string := path_join cwd ["verif"; "ENV"; "AGENTS"].
Definition agent_dir (intf : interface) : string := path_join agents_dir [agent_name intf].
Definition agent_file (intf : interface) : string :=
  path_join (agent_dir intf) [agent_agent_class intf +:+ ".sv"].
Definition comp_file (intf : interface) (suffix : string) : string :=
  path_join (agent_dir intf) [agent_name intf +:+ "_" +:+ suffix +:+ ".sv"].

(** Body of the inner loop over [components.items()]. *)
Definition agent_component (intf : interface) (c : string * string) : list op :=
  let '(suffix, base_class) := c in
  let class_name := agent_name intf +:+ "_" +:+ suffix in
  [ Write (comp_file intf suffix) (concat (component_chunks intf suffix base_class));
    Print ("Created component: " +:+ comp_file intf suffix);
    Append readme_path ("   └── " +:+ class_name +:+ ".sv (extends " +:+ base_class
                          +:+ ")" +:+ nl) ].

(** Body of the loop over the interfaces.  The summary handle stays open
    over the whole loop; each [readme.write] is taken at its place. *)
Definition agent_interface (intf : interface) : list op :=
  let mode := agent_mode intf in
  if negb (truthy (agent_name intf))
     || negb (String.eqb mode "M" || String.eqb mode "S")
  then []
  else
    [ Write (agent_file intf) (concat (agent_chunks intf));
      Print ("Created agent class: " +:+ agent_file intf);
      Append readme_path (" -" +:+ agent_agent_class intf +:+ ".sv" +:+ nl) ]
    ++ flat_map (agent_component intf) (components mode).

Definition agent_todo : string :=
  concat
    [ "TODO for User:" +:+ nl;
      "- In Driver file" +:+ nl;
      "-- Implement Protocol specific drive logic functionality" +:+ nl;
      "- In Cov file" +:+ nl;
      "-- Implement protocol specific FC" +:+ nl;
      "- In Mon file" +:+ nl;
      "-- Implement protocol specific mon logic functionality" +:+ nl;
      "---------------------------------------------------------------------------" +:+ nl ].

Definition create_full_agent_and_components (cfg : config) : list op :=
  [ Append readme_path (nl +:+ nl +:+ "Agent & Component Summary" +:+ nl) ]
  ++ flat_map agent_interface (interfaces cfg)
  ++ [ Append readme_path agent_todo;
       Print (nl +:+ "Refer to README.txt for a detailed summary of agents and its components file:");
       Print ("   → " +:+ readme_path);
       Print rule ].

(** ** Sequence generator: [generate_base_seq] *)

Definition seq_chunks (seq_class : string) : list string :=
  [ "// ----------------------------------------------------" +:+ nl;
    "//UVM sequence: " +:+ seq_class +:+ nl;
    "//----------------------------------------------------" +:+ nl;
    "class " +:+ seq_class +:+ " extends uvm_sequence;" +:+ nl;
    "`uvm_object_utils(" +:+ seq_class +:+ ")" +:+ nl +:+ nl;
    "function new(string name = " +:+ dq +:+ seq_class +:+ dq +:+ ");" +:+ nl;
    "  super.new(name);" +:+ nl;
    "endfunction" +:+ nl +:+ nl;
    "virtual task body();" +:+ nl;
    "  `uvm_info(get_type_name(), " +:+ dq +:+ "Starting " +:+ seq_class +:+ dq
      +:+ ", UVM_NONE)" +:+ nl;
    "  //Randomizing req" +:+ nl;
    "  `uvm_do(req)" +:+ nl;
    "endtask" +:+ nl +:+ nl;
    "endclass : " +:+ seq_class +:+ nl ].

Definition seq_summary (seq_class : string) : string :=
  join nl
    [ "";
      seq_class +:+ ".sv Summary";
      "- Class " +:+ seq_class +:+ " extends uvm_sequence";
      "- Factory registration with `uvm_object_utils`";
      "- new() constructor";
      "- body() includes:";
      "   - `uvm_info` to indicate start of sequence";
      "   - `uvm_do macro which allows tool to randomize the tx fields";
      "- TODO: Define sequence item type (req) and if needed use uuvm_do_with instead of uvm_do";
      "---------------------------------------------------------------------------------------------";
      "" ].

Definition seq_file (seq_class : string) : string :=
  path_join cwd ["verif"; "SEQ_LIB"; seq_class +:+ ".sv"].

Definition generate_base_seq (cfg : config) : list op :=
  let dut_name := stem cfg in
  if negb (truthy dut_name)
  then [ Print "No DUT name found in config. Skipping base sequence generation." ]
  else
    let seq_class := dut_name +:+ "_base_seq" in
    [ Write (seq_file seq_class) (concat (seq_chunks seq_class));
      Print ("Generated base sequence: " +:+ seq_file seq_class);
      Append readme_path (seq_summary seq_class);
      Print (nl +:+ "Refer to README.txt for a detailed summary of agents and its components file:");
      Print ("   → " +:+ readme_path);
      Print rule ].

(** ** The script, from the parsed rows to the last generator *)

Definition print_interface (i : nat) (intf : interface) : op :=
  Print ("[" +:+ pretty i +:+ "] Name: " +:+ name intf +:+ ", Mode: " +:+ mode intf
           +:+ ", Speed: " +:+ speed intf +:+ ", Clk: " +:+ clk intf
           +:+ ", Rst: " +:+ str_opt (rst intf)
           +:+ ", Rst Type: " +:+ str_opt (rst_type intf)).

(** [for i, intf in enumerate(l, start=i)] *)
Fixpoint print_interfaces (i : nat) (l : list interface) : list op :=
  match l with
  | [] => []
  | intf :: l' => print_interface i intf :: print_interfaces (S i) l'
  end.

Definition print_config (cfg : config) : list op :=
  [ Print rule;
    Print ("DUT Name        : " +:+ str_opt (dut_name cfg));
    Print ("Num Interfaces  : " +:+ str_num_interfaces cfg);
    Print (nl +:+ "Parsed Interface Configurations:") ]
  ++ print_interfaces 1 (interfaces cfg)
  ++ [ Print rule ].

(** Everything the script does once the configuration is parsed. *)
Definition generate_all (cfg : config) : list op :=
  print_config cfg
  ++ create_uvm_tb_dirs ++ [ Print rule ]
  ++ generate_top_sv_from_cfg cfg
  ++ generate_uvm_test cfg
  ++ generate_uvm_env cfg
  ++ create_full_agent_and_components cfg
  ++ generate_base_seq cfg.

(** One run of the script on the rows of the CSV file: an uncaught
    exception of the parser ends the run before anything is generated. *)
Definition main (rows : list (list string)) (w : world) : outcome world :=
  match read_interface_csv rows with
  | Ok cfg => Ok (exec (generate_all cfg) w)
  | Raise e => Raise e
  end.

End Script.

(** ** The claims in the words of the specification *)

(** The record of an [INTF] row with at least five non-blank cells; no
    record for any other row. *)
Definition intf_row (raw : list string) : option interface :=
  match clean_row raw with
  | k :: r1 :: r2 :: r3 :: r4 :: rest =>
      if String.eqb (row_key k) "INTF"
      then Some (make_interface r1 r2 r3 r4 rest)
      else None
  | _ => None
  end.

(** One record per such row, in row order, duplicates kept. *)
Definition intf_records (rows : list (list string)) : list interface :=
  omap intf_row rows.

(** The paths an effect list writes or appends to. *)
Fixpoint touched (ops : list op) : gset string :=
  match ops with
  | [] => ∅
  | Write p _ :: ops' => {[p]} ∪ touched ops'
  | Append p _ :: ops' => {[p]} ∪ touched ops'
  | Print _ :: ops' => touched ops'
  end.

(** Every append goes to a path in [d] or to one written earlier in the
    list. *)
Fixpoint appends_follow_write (d : gset string) (ops : list op) : Prop :=
  match ops with
  | [] => True
  | Write p _ :: ops' => appends_follow_write ({[p]} ∪ d) ops'
  | Append p _ :: ops' => p ∈ d ∧ appends_follow_write d ops'
  | Print _ :: ops' => appends_follow_write d ops'
  end.

(** A string with no white space at its head. *)
Definition head_solid (s : string) : Prop :=
  match s with String c _ => isspace c = false | EmptyString => True end.

(** Every cell of a cleaned row is stripped and non-empty. *)
Definition clean_cell (s : string) : Prop := strip s = s ∧ truthy s = true.

(** What holds of every configuration the parser can return. *)
Record parsed (cfg : config) : Prop := {
  parsed_dut : ∀ d, dut_name cfg = Some d → clean_cell d;
  parsed_names : Forall (fun i => clean_cell (name i)) (interfaces cfg)
}.

(** An effect that, if it appends, appends to [p]. *)
Definition appends_only_to (p : string) (o : op) : Prop :=
  match o with Append q _ => q = p | _ => True end.

(** ** Sample inputs *)

Definition empty_world : world := {| files := ∅; console := [] |}.

(** The two interfaces of the example in the head of the script, the
    reset cell quoted so that it reaches the parser with its comma. *)
Definition sample_rows : list (list string) :=
  [ ["DUT_NAME     "; " usb_ctrl"];
    ["NUM_INTF     "; " 2"];
    ["INTF         "; " i2c "; " M "; " 100 "; " i2c_clk "; "i2c_rst , active_low"];
    ["INTF         "; " uart"; " S "; " 200 "; " uart_clk"; "uart_rst, active_high"] ].

Definition i2c : interface :=
  {| name := "i2c"; mode := "M"; speed := "100"; clk := "i2c_clk";
     rst := Some "i2c_rst"; rst_type := Some "active_low" |}.

Definition uart : interface :=
  {| name := "uart"; mode := "S"; speed := "200"; clk := "uart_clk";
     rst := Some "uart_rst"; rst_type := Some "active_high" |}.

Definition sample_config : config :=
  {| dut_name := Some "usb_ctrl"; num_interfaces := Some 2; interfaces := [i2c; uart] |}.

(** An effect that is not an append. *)
Definition no_append (o : op) : Prop :=
  match o with Append _ _ => False | _ => True end.

(** The output tree after one run on the sample rows, from an empty tree. *)
Definition sample_once : world :=
  exec (generate_all "/work" sample_config) empty_world.

(** The paths an effect list opens for writing, in order. *)
Definition writes (ops : list op) : list string :=
  omap (fun o => match o with Write p _ => Some p | _ => None end) ops.

(** The record of the row [INTF, n, M, 100, c1, r1]. *)
Definition clocked_master (n : string) : interface :=
  {| name := strip n; mode := "M"; speed := "100"; clk := "c1";
     rst := Some "r1"; rst_type := Some "1" |}.


(** An interface named by the sentinel. *)
Definition nil_master : interface :=
  {| name := "NIL"; mode := "M"; speed := "100"; clk := "clk";
     rst := None; rst_type := None |}.

(** ** The header utility: [insert_header.py]

    [datetime.date.today().strftime("%B %d, %Y")] is the argument [today].
    A file opened for reading in text mode has its line ends translated
    ([universal_newlines]); a missing file raises [FileNotFoundError]. *)

Module InsertHeader.

Inductive io_exn := FileNotFoundError.

(** Each line followed by a line feed. *)
Fixpoint unlines (l : list string) : string :=
  match l with
  | [] => ""
  | x :: l' => x +:+ nl +:+ unlines l'
  end.

(** Text-mode reading: [\r\n] and [\r] become [\n]. *)
Fixpoint universal_newlines (s : string) : string :=
  match s with
  | String c s' =>
      if Ascii.eqb c "013"%char
      then String "010"%char
             match s' with
             | String c' s'' =>
                 if Ascii.eqb c' "010"%char then universal_newlines s''
                 else universal_newlines s'
             | EmptyString => EmptyString
             end
      else String c (universal_newlines s')
  | EmptyString => EmptyString
  end.

(** The ASCII line boundaries of [str.splitlines]: LF, VT, FF, CR, FS, GS
    and RS. *)
Definition is_linebreak (c : ascii) : bool :=
  let n := N_of_ascii c in
  (((10 <=? n) && (n <=? 13)) || ((28 <=? n) && (n <=? 30)))%N.

(** [s.splitlines()]: [\r\n] is one boundary; no empty last line. *)
Fixpoint splitlines (s : string) : list string :=
  match s with
  | String c s' =>
      if is_linebreak c then
        EmptyString ::
          match s' with
          | String c' s'' =>
              if Ascii.eqb c "013"%char && Ascii.eqb c' "010"%char
              then splitlines s''
              else splitlines s'
          | EmptyString => []
          end
      else match splitlines s' with
           | l :: ls => String c l :: ls
           | [] => [String c EmptyString]
           end
  | EmptyString => []
  end.

Definition header (today version : string) : string :=
  unlines
    [ "# =============================================================================";
      "# Author      : Koushik Shridhar";
      "# Date        : " +:+ today;
      "# Version     : " +:+ version;
      "#";
      "# Description : ";
      "#   This Python script generates UVM SystemVerilog Testbench components ";
      "#   based on configuration provided via a CSV or structured input dictionary.";
      "#   It creates the following:";
      "#     - UVM top.sv";
      "#     - test, base test, environment";
      "#     - agents, drivers, monitors, subscribers, sequencers";
      "#     - Sequence ";
      "#   (Note: This script does NOT generate the RAL model, Scoreboard)";
      "#";
      "# CSV Format (used as input):";
      "# -----------------------------------------------------------------------------";
      "# Field Name   | Value(s) / Description";
      "# -----------------------------------------------------------------------------";
      "# DUT_NAME     | <Name of the DUT>";
      "# NUM_INTF     | <Number of Interfaces>";
      "# INTF         | <Name>,<Mode>,<Freq>,<ClkName>,[<RstName>,<RstType>]";
      "#              | - Mode: M (Master) / S (Slave)";
      "#              | - Freq: Clock frequency in MHz (e.g., 100)";
      "#              | - RstType: active_high / active_low";
      "#";
      "# Example Rows:";
      "# DUT_NAME     , usb_ctrl";
      "# NUM_INTF     , 2";
      "# INTF         , i2c , M , 100 , i2c_clk , [i2c_rst , active_low]";
      "# INTF         , uart, S , 200 , uart_clk, [uart_rst, active_high]";
      "#";
      "# Output Summary:";
      "#   A summary file named `README.txt` is generated under `verif/SIM/`.";
      "#   It contains:";
      "#     - A list of all generated files";
      "#     - Brief descriptions for each file";
      "#     - TODOs that guide the user to complete component logic";
      "#";
      "# License:";
      "#   This script is provided " +:+ dq +:+ "as is" +:+ dq +:+ ", without warranty of any kind.";
      "#   You are free to modify, distribute, and use it as part of your projects.";
      "# =============================================================================" ].

(** ["Author      : Koushik Shridhar" in original.splitlines()[0:10]] *)
Definition already_has_header (original : string) : bool :=
  existsb (String.eqb "Author      : Koushik Shridhar")
          (take 10 (splitlines original)).

Definition insert_script_header (today script_path version : string) (w : world)
  : io_exn + world :=
  match files w !! script_path with
  | None => inl FileNotFoundError
  | Some content =>
      let original := universal_newlines content in
      if already_has_header original
      then inr (exec [ Print "⚠️  Header already exists. Skipping insertion." ] w)
      else inr (exec [ Write script_path (header today version +:+ nl +:+ original);
                       Print ("✅ Header inserted at top of " +:+ script_path) ] w)
  end.

(** The two calls at the end of the file, with the default version. *)
Definition script (today : string) (w : world) : io_exn + world :=
  match insert_script_header today "test1.py" "1.0.0" w with
  | inr w' => insert_script_header today "UVM_Tb_generator.py" "1.0.0" w'
  | inl e => inl e
  end.

End InsertHeader.

(** ** Further notions used to describe the code *)

(** A [NUM_INTF] row whose value does not read as an integer. *)
Definition bad_num_intf_row (raw : list string) : bool :=
  match clean_row raw with
  | k :: v :: _ =>
      String.eqb (row_key k) "NUM_INTF"
      && match int v with Some _ => false | None => true end
  | _ => false
  end.

(** The name a [DUT_NAME] row gives, if the row is one and has a value. *)
Definition dut_row (raw : list string) : option string :=
  match clean_row raw with
  | k :: v :: _ => if String.eqb (row_key k) "DUT_NAME" then Some v else None
  | _ => None
  end.

(** The count a [NUM_INTF] row gives, if the row is one and its value
    reads as an integer. *)
Definition num_row (raw : list string) : option Z :=
  match clean_row raw with
  | k :: v :: _ =>
      if String.eqb (row_key k) "DUT_NAME" then None
      else if String.eqb (row_key k) "NUM_INTF" then int v else None
  | _ => None
  end.

(** A row the parser has no use for: blank, or with a key that is none of
    the three. *)
Definition foreign_row (raw : list string) : Prop :=
  match clean_row raw with
  | [] => True
  | k :: _ =>
      row_key k ≠ "DUT_NAME" ∧ row_key k ≠ "NUM_INTF" ∧ row_key k ≠ "INTF"
  end.

(** What holds of every record the parser builds. *)
Record clean_record (i : interface) : Prop := {
  clean_name : clean_cell (name i);
  clean_mode : clean_cell (mode i);
  clean_speed : clean_cell (speed i);
  clean_clk : clean_cell (clk i);
  clean_rst : ∀ r, rst i = Some r → strip r = r;
  clean_rst_type : ∀ t, rst_type i = Some t → strip t = t;
  clean_rst_both : rst i = None ↔ rst_type i = None
}.

Fixpoint last_char (s : string) : option ascii :=
  match s with
  | String c EmptyString => Some c
  | String _ s' => last_char s'
  | EmptyString => None
  end.

(** The text an effect list appends, in order. *)
Definition appended (ops : list op) : string :=
  concat (omap (fun o => match o with Append _ c => Some c | _ => None end) ops).

(** An effect that leaves [p] alone unless it appends to it. *)
Definition only_appends_at (p : string) (o : op) : Prop :=
  match o with
  | Write q _ => q ≠ p
  | Append q _ => q = p
  | Print _ => True
  end.

(** The sections of the summary, generator by generator. *)
Definition test_section (cfg : config) : string :=
  if truthy (stem cfg)
  then test_summary (stem cfg +:+ "_base_test") (stem cfg +:+ "_env")
                    (stem cfg +:+ "_base_seq")
  else "".

Definition env_section (cfg : config) : string :=
  if truthy (stem cfg)
  then env_summary (stem cfg +:+ "_env") (interfaces cfg)
  else "".

Definition seq_section (cfg : config) : string :=
  if truthy (stem cfg) then seq_summary (stem cfg +:+ "_base_seq") else "".

Definition agent_component_line (intf : interface) (c : string * string) : string :=
  "   └── " +:+ (agent_name intf +:+ "_" +:+ fst c) +:+ ".sv (extends " +:+ snd c
    +:+ ")" +:+ nl.

Definition agent_interface_lines (intf : interface) : string :=
  if negb (truthy (agent_name intf))
     || negb (String.eqb (agent_mode intf) "M" || String.eqb (agent_mode intf) "S")
  then ""
  else (" -" +:+ agent_agent_class intf +:+ ".sv" +:+ nl)
         +:+ concat (map (agent_component_line intf) (components (agent_mode intf))).

Definition agent_section (cfg : config) : string :=
  (nl +:+ nl +:+ "Agent & Component Summary" +:+ nl)
    +:+ concat (map agent_interface_lines (interfaces cfg))
    +:+ agent_todo.

(** The summary one run leaves. *)
Definition summary_text (cfg : config) : string :=
  join nl (top_readme_lines cfg)
    +:+ test_section cfg +:+ env_section cfg +:+ agent_section cfg
    +:+ seq_section cfg.

Fixpoint no_linebreak (s : string) : bool :=
  match s with
  | String c s' => negb (InsertHeader.is_linebreak c) && no_linebreak s'
  | EmptyString => true
  end.

(** A slave interface and a second master with the name of [i2c]. *)
Definition spi_slave : interface :=
  {| name := "SPI"; mode := "s"; speed := "50"; clk := "spi_clk";
     rst := Some "spi_rst"; rst_type := Some "0" |}.

Definition i2c_again : interface :=
  {| name := "I2C"; mode := "S"; speed := "400"; clk := "clk2";
     rst := None; rst_type := None |}.

(** An interface whose name is an absolute path. *)
Definition rooted : interface :=
  {| name := "/tmp/x"; mode := "M"; speed := "10"; clk := "c";
     rst := None; rst_type := None |}.

(** An interface with a reset and no clock. *)
Definition unclocked : interface :=
  {| name := "gpio"; mode := "S"; speed := "nil"; clk := "NIL";
     rst := Some "gpio_rst"; rst_type := Some "1" |}.

(** ** Strings *)


Lemma rstrip_rstrip s : rstrip (rstrip s) = rstrip s.
Proof.
  induction s as [|c s IH]; simpl; [done|].
  destruct (rstrip s) as [|c' r] eqn:E.
  - destruct (isspace c) eqn:Ec; simpl; [done|by rewrite Ec].
  - simpl. simpl in IH. by rewrite IH.
Qed.

Lemma lstrip_head s : head_solid (lstrip s).
Proof.
  induction s as [|c s IH]; simpl; [done|].
  destruct (isspace c) eqn:E; [done|]. simpl. done.
Qed.

Lemma lstrip_solid s : head_solid s → lstrip s = s.
Proof. destruct s as [|c s]; simpl; [done|]. by intros ->. Qed.

Lemma rstrip_head s : head_solid s → head_solid (rstrip s).
Proof.
  destruct s as [|c s]; simpl; [done|]. intros Hc.
  destruct (rstrip s); simpl; by rewrite ?Hc.
Qed.

Lemma strip_strip s : strip (strip s) = strip s.
Proof.
  unfold strip.
  rewrite (lstrip_solid (rstrip (lstrip s))).
  - apply rstrip_rstrip.
  - apply rstrip_head, lstrip_head.
Qed.




Lemma truthy_true s : truthy s = true ↔ s ≠ "".
Proof. destruct s; simpl; split; congruence. Qed.

Lemma truthy_smap f s : truthy (smap f s) = truthy s.
Proof. by destruct s. Qed.

Lemma eqb_true (a b : string) : String.eqb a b = true ↔ a = b.
Proof. apply String.eqb_eq. Qed.

Lemma eqb_false (a b : string) : String.eqb a b = false ↔ a ≠ b.
Proof. apply String.eqb_neq. Qed.

Lemma app_cons_s x (a b : string) : String x a +:+ b = String x (a +:+ b).
Proof. reflexivity. Qed.

Lemma app_nil_r_s (a : string) : a +:+ "" = a.
Proof. induction a as [|x a IH]; [done|]. by rewrite app_cons_s, IH. Qed.

Lemma app_assoc_s (a b c : string) : (a +:+ b) +:+ c = a +:+ b +:+ c.
Proof. induction a as [|x a IH]; [done|]. by rewrite !app_cons_s, IH. Qed.

Lemma truthy_app a b : truthy (a +:+ b) = truthy a || truthy b.
Proof. by destruct a. Qed.

Lemma startswith_sep_app a b : a ≠ "" → startswith_sep (a +:+ b) = startswith_sep a.
Proof. by destruct a. Qed.

Lemma path_join2_inj p b b' :
  startswith_sep b = startswith_sep b' →
  path_join2 p b = path_join2 p b' → b = b'.
Proof.
  unfold path_join2. intros <-. destruct (startswith_sep b); [done|].
  destruct (_ || _); intros H.
  - by apply (inj (String.app p)) in H.
  - apply (inj (String.app p)) in H. by apply (inj (String.app "/")) in H.
Qed.

(** ** The parser *)

Lemma clean_row_cells raw : Forall clean_cell (clean_row raw).
Proof.
  unfold clean_row. induction raw as [|c raw IH]; simpl; [constructor|].
  destruct (truthy (strip c)) eqn:E; simpl; [|done].
  constructor; [|done]. split; [apply strip_strip|done].
Qed.

Lemma read_row_parsed raw st st' :
  parsed st → read_row raw st = Ok st' → parsed st'.
Proof.
  intros [Hd Hn]. unfold read_row.
  pose proof (clean_row_cells raw) as Hc.
  destruct (clean_row raw) as [|k [|r1 rest1]]; try (intros [= <-]; by split).
  apply Forall_cons in Hc as [_ Hc]. apply Forall_cons in Hc as [H1 Hc].
  destruct (String.eqb (row_key k) "DUT_NAME").
  { intros [= <-]. split; simpl; [by intros d [= <-]|done]. }
  destruct (String.eqb (row_key k) "NUM_INTF").
  { destruct (int r1); [|done]. intros [= <-]. by split. }
  destruct (String.eqb (row_key k) "INTF"); [|intros [= <-]; by split].
  destruct rest1 as [|r2 [|r3 [|r4 rest4]]]; try (intros [= <-]; by split).
  intros [= <-]. split; simpl; [done|].
  apply Forall_app. split; [done|]. constructor; [|constructor].
  unfold make_interface. by destruct (reset_info rest4).
Qed.

Lemma read_rows_parsed rows st st' :
  parsed st → read_rows rows st = Ok st' → parsed st'.
Proof.
  revert st. induction rows as [|raw rows IH]; simpl; intros st Hst.
  - by intros [= <-].
  - destruct (read_row raw st) as [st1|] eqn:E; [|done].
    apply IH. by eapply read_row_parsed.
Qed.

Lemma read_interface_csv_parsed rows cfg :
  read_interface_csv rows = Ok cfg → parsed cfg.
Proof.
  apply read_rows_parsed. split; simpl; [done|constructor].
Qed.

Example sample_rows_parse : read_interface_csv sample_rows = Ok sample_config.
Proof. reflexivity. Qed.

(** ** Effects *)

Lemma exec_app a b w : exec (a ++ b) w = exec b (exec a w).
Proof. apply fold_left_app. Qed.

Lemma exec_cons o ops w : exec (o :: ops) w = exec ops (exec_op w o).
Proof. reflexivity. Qed.

(** A path the list does not touch keeps its content (or its absence). *)
Lemma exec_untouched ops w p :
  p ∉ touched ops → files (exec ops w) !! p = files w !! p.
Proof.
  revert w. induction ops as [|[q c|q c|t] ops IH]; intros w Hp;
    [done|rewrite exec_cons; cbn [touched] in Hp..].
  - rewrite IH by set_solver. simpl. apply lookup_insert_ne. set_solver.
  - rewrite IH by set_solver. simpl. apply lookup_insert_ne. set_solver.
  - by rewrite IH.
Qed.

(** A touched path holds a file afterwards. *)
Lemma exec_touched_is_Some ops w p :
  p ∈ touched ops → is_Some (files (exec ops w) !! p).
Proof.
  revert w. induction ops as [|[q c|q c|t] ops IH]; intros w;
    rewrite ?exec_cons; cbn [touched]; [set_solver| | |apply IH].
  - intros Hin. destruct (decide (p ∈ touched ops)) as [H|H]; [by apply IH|].
    rewrite exec_untouched by done. simpl.
    assert (q = p) as -> by set_solver. rewrite lookup_insert_eq. by eexists.
  - intros Hin. destruct (decide (p ∈ touched ops)) as [H|H]; [by apply IH|].
    rewrite exec_untouched by done. simpl.
    assert (q = p) as -> by set_solver. rewrite lookup_insert_eq. by eexists.
Qed.

(** Two runs of a list from worlds that agree on [d] agree on [d] and on
    every touched path, when appends only follow writes. *)
Lemma exec_agree ops d w w' :
  appends_follow_write d ops →
  (∀ p, p ∈ d → files w !! p = files w' !! p) →
  ∀ p, p ∈ d ∪ touched ops →
       files (exec ops w) !! p = files (exec ops w') !! p.
Proof.
  revert d w w'.
  induction ops as [|[q c|q c|t] ops IH]; intros d w w' Hops Hag p Hp;
    [apply Hag; set_solver|rewrite !exec_cons; cbn [touched appends_follow_write] in *..].
  - apply (IH ({[q]} ∪ d)); [done| |set_solver].
    intros p' Hp'. simpl. destruct (decide (q = p')) as [->|Hne].
    + by rewrite !lookup_insert_eq.
    + rewrite !lookup_insert_ne by done. apply Hag. set_solver.
  - destruct Hops as [Hq Hops].
    apply (IH d); [done| |set_solver].
    intros p' Hp'. simpl. destruct (decide (q = p')) as [->|Hne].
    + by rewrite !lookup_insert_eq, (Hag p').
    + rewrite !lookup_insert_ne by done. by apply Hag.
  - by apply (IH d).
Qed.

(** Running such a list a second time changes no file. *)
Lemma exec_twice ops w :
  appends_follow_write ∅ ops →
  files (exec ops (exec ops w)) = files (exec ops w).
Proof.
  intros Hops. apply map_eq. intros p.
  destruct (decide (p ∈ touched ops)) as [Hp|Hp].
  - apply (exec_agree ops ∅); [done|set_solver|set_solver].
  - by apply exec_untouched.
Qed.

Lemma appends_follow_write_mono ops d d' :
  d ⊆ d' → appends_follow_write d ops → appends_follow_write d' ops.
Proof.
  revert d d'. induction ops as [|[q c|q c|t] ops IH]; intros d d' Hd; simpl.
  - done.
  - apply IH. set_solver.
  - intros [Hq H]. split; [set_solver|by eapply IH].
  - by apply IH.
Qed.

Lemma appends_follow_write_app a b d :
  appends_follow_write d a →
  appends_follow_write (touched a ∪ d) b →
  appends_follow_write d (a ++ b).
Proof.
  revert d. induction a as [|[q c|q c|t] a IH]; intros d; simpl.
  - intros _. apply appends_follow_write_mono. set_solver.
  - intros Ha Hb. apply IH; [done|].
    eapply appends_follow_write_mono; [|exact Hb]. set_solver.
  - intros [Hq Ha] Hb. split; [done|]. apply IH; [done|].
    eapply appends_follow_write_mono; [|exact Hb]. set_solver.
  - apply IH.
Qed.

Lemma no_append_follow d ops :
  Forall no_append ops → appends_follow_write d ops.
Proof.
  intros Hops. revert d.
  induction Hops as [|[q c|q c|t] ops Ho _ IH]; intros d; simpl in *; auto.
  done.
Qed.

Lemma appends_only_to_follow p d ops :
  p ∈ d → Forall (appends_only_to p) ops → appends_follow_write d ops.
Proof.
  intros Hp Hops. revert d Hp.
  induction Hops as [|[q c|q c|t] ops Ho _ IH]; intros d Hp; simpl in *.
  - done.
  - apply IH. set_solver.
  - subst q. split; [done|by apply IH].
  - by apply IH.
Qed.

Lemma touched_app a b : touched (a ++ b) = touched a ∪ touched b.
Proof.
  induction a as [|[q c|q c|t] a IH]; simpl; rewrite ?IH; set_solver.
Qed.

Section Summary.

Variable cwd : string.

Ltac each_op :=
  repeat first
    [ solve [constructor]
    | apply Forall_cons; split; [exact I || reflexivity|]
    | apply Forall_app; split ].

Lemma print_interfaces_no_append n l : Forall no_append (print_interfaces n l).
Proof. revert n. induction l; intros n; simpl; constructor; [exact I|auto]. Qed.

Lemma print_config_no_append cfg : Forall no_append (print_config cfg).
Proof. unfold print_config. each_op. apply print_interfaces_no_append. Qed.

Lemma create_uvm_tb_dirs_no_append : Forall no_append (create_uvm_tb_dirs cwd).
Proof. unfold create_uvm_tb_dirs. simpl. each_op. Qed.

Lemma generate_top_no_append cfg :
  Forall no_append (generate_top_sv_from_cfg cwd cfg).
Proof. unfold generate_top_sv_from_cfg. each_op. Qed.

Lemma generate_top_touches_readme cfg :
  readme_path cwd ∈ touched (generate_top_sv_from_cfg cwd cfg).
Proof. unfold generate_top_sv_from_cfg. simpl. set_solver. Qed.

Lemma generate_uvm_test_appends cfg :
  Forall (appends_only_to (readme_path cwd)) (generate_uvm_test cwd cfg).
Proof. unfold generate_uvm_test. destruct (negb _); each_op. Qed.

Lemma generate_uvm_env_appends cfg :
  Forall (appends_only_to (readme_path cwd)) (generate_uvm_env cwd cfg).
Proof. unfold generate_uvm_env. destruct (negb _); each_op. Qed.

Lemma agent_interface_appends intf :
  Forall (appends_only_to (readme_path cwd)) (agent_interface cwd intf).
Proof.
  unfold agent_interface. destruct (_ || _); each_op.
  unfold components. destruct (String.eqb _ "M"); simpl; each_op.
Qed.

Lemma create_full_agent_appends cfg :
  Forall (appends_only_to (readme_path cwd))
         (create_full_agent_and_components cwd cfg).
Proof.
  unfold create_full_agent_and_components. each_op.
  induction (interfaces cfg); simpl; each_op; [apply agent_interface_appends|done].
Qed.

Lemma generate_base_seq_appends cfg :
  Forall (appends_only_to (readme_path cwd)) (generate_base_seq cwd cfg).
Proof. unfold generate_base_seq. destruct (negb _); each_op. Qed.

(** In a whole run every append to the summary follows the write of the
    top-level generator. *)
Lemma generate_all_appends_follow_write cfg :
  appends_follow_write ∅ (generate_all cwd cfg).
Proof.
  unfold generate_all.
  apply appends_follow_write_app; [apply no_append_follow, print_config_no_append|].
  apply appends_follow_write_app; [apply no_append_follow, create_uvm_tb_dirs_no_append|].
  apply appends_follow_write_app; [apply no_append_follow; each_op|].
  apply appends_follow_write_app; [apply no_append_follow, generate_top_no_append|].
  apply (appends_only_to_follow (readme_path cwd)).
  { pose proof (generate_top_touches_readme cfg). set_solver. }
  apply Forall_app; split; [apply generate_uvm_test_appends|].
  apply Forall_app; split; [apply generate_uvm_env_appends|].
  apply Forall_app; split; [apply create_full_agent_appends|].
  apply generate_base_seq_appends.
Qed.

Lemma generate_all_touches_readme cfg :
  readme_path cwd ∈ touched (generate_all cwd cfg).
Proof.
  unfold generate_all. rewrite !touched_app.
  pose proof (generate_top_touches_readme cfg). set_solver.
Qed.

End Summary.

(** ** Running the script twice *)

(** C2, as amended.  A second run on the same rows and on the output tree
    of the first leaves every file, the summary included, as the first run
    left it: the top-level generator opens the summary in write mode, so
    whatever the tree held before, the summary after a run is the summary
    a single run writes into an empty tree. *)
Theorem rerun_keeps_every_file cwd rows w w1 :
  main cwd rows w = Ok w1 →
  ∃ w2 single,
    main cwd rows w1 = Ok w2
    ∧ files w2 = files w1
    ∧ main cwd rows empty_world = Ok single
    ∧ is_Some (files single !! readme_path cwd)
    ∧ files w2 !! readme_path cwd = files single !! readme_path cwd.
Proof.
  unfold main. destruct (read_interface_csv rows) as [cfg|]; [|done].
  intros Hw1. assert (w1 = exec (generate_all cwd cfg) w) as -> by congruence.
  clear Hw1.
  pose proof (generate_all_appends_follow_write cwd cfg) as Hops.
  pose proof (generate_all_touches_readme cwd cfg) as Hreadme.
  exists (exec (generate_all cwd cfg) (exec (generate_all cwd cfg) w)),
         (exec (generate_all cwd cfg) empty_world).
  split; [done|]. split; [by apply exec_twice|].
  split; [done|]. split.
  - apply exec_touched_is_Some, Hreadme.
  - apply (exec_agree _ ∅); [exact Hops| |].
    + intros p Hp. by apply not_elem_of_empty in Hp.
    + apply elem_of_union_r, Hreadme.
Qed.

Lemma rerun_keeps_every_file_witness :
  ∃ w2 single,
    main "/work" sample_rows sample_once = Ok w2
    ∧ files w2 = files sample_once
    ∧ main "/work" sample_rows empty_world = Ok single
    ∧ is_Some (files single !! readme_path "/work")
    ∧ files w2 !! readme_path "/work" = files single !! readme_path "/work".
Proof.
  apply (rerun_keeps_every_file "/work" sample_rows empty_world sample_once).
  reflexivity.
Defined.

(** C2 as stated fails: on the sample rows, starting from an empty tree,
    the summary after the second run is not twice the summary after the
    first. *)
Lemma rerun_summary_not_doubled :
  ∃ w1 w2 s,
    main "/work" sample_rows empty_world = Ok w1
    ∧ main "/work" sample_rows w1 = Ok w2
    ∧ files w1 !! readme_path "/work" = Some s
    ∧ files w2 !! readme_path "/work" ≠ Some (s +:+ s).
Proof.
  eexists _, _, _. split; [reflexivity|]. split; [reflexivity|].
  split; [vm_compute; reflexivity|].
  intros H. apply (f_equal (fmap String.length)) in H.
  vm_compute in H. discriminate.
Qed.

(** ** Reset polarity *)

(** What the wiring generator does with the polarity token: the pulse is
    1-then-0 exactly for the token ["1"]; every other non-empty token
    gives 0-then-1. *)
Lemma top_reset_pulse_token intf r t :
  defined (clk intf) = true → rst intf = Some r → defined r = true →
  rst_type intf = Some t → t ≠ "" →
  top_reset_pulse intf =
    [ "  // " +:+ r +:+ " reset pulse using @" +:+ clk intf +:+ ", active "
        +:+ (if bool_decide (t = "1") then "high" else "low");
      "  initial begin";
      "    " +:+ r +:+ " = " +:+ (if bool_decide (t = "1") then "1" else "0") +:+ ";";
      "    @(posedge " +:+ clk intf +:+ ");";
      "    " +:+ r +:+ " = " +:+ (if bool_decide (t = "1") then "0" else "1") +:+ ";";
      "  end" +:+ nl ].
Proof.
  unfold defined, top_reset_pulse. intros Hc -> Hr -> Ht.
  apply andb_true_iff in Hc as [Hc1 Hc2]. apply andb_true_iff in Hr as [Hr1 Hr2].
  apply negb_true_iff in Hc2, Hr2. rewrite Hc1, Hc2, Hr1, Hr2. simpl.
  apply truthy_true in Ht. rewrite Ht. simpl.
  destruct (decide (t = "1")) as [->|Hne].
  - reflexivity.
  - rewrite !bool_decide_eq_false_2; [reflexivity|congruence..].
Qed.

(** C3, on the code.  The row [INTF,uart,S,200,uart_clk,"uart_rst, active_high"]
    is parsed with the polarity token [active_high] kept as it is, and
    the wiring generator emits for it the pulse 0-then-1, labelled
    "active low". *)
Lemma active_high_token_emits_low_pulse :
  read_interface_csv
    [ ["INTF"; "uart"; "S"; "200"; "uart_clk"; "uart_rst, active_high"] ]
  = Ok {| dut_name := None; num_interfaces := None; interfaces := [uart] |}
  ∧ top_reset_pulse uart =
      [ "  // uart_rst reset pulse using @uart_clk, active low";
        "  initial begin";
        "    uart_rst = 0;";
        "    @(posedge uart_clk);";
        "    uart_rst = 1;";
        "  end" +:+ nl ].
Proof. split; reflexivity. Qed.

(** ** Missing DUT name *)

Ltac in_app :=
  repeat match goal with
         | |- In _ (_ ++ _) =>
             apply in_or_app; first [left; solve [simpl; tauto] | right]
         | |- In _ (_ :: _) => solve [simpl; tauto]
         end.


(** C4. When the parsed configuration has no DUT name (or one that is
    empty once stripped), the test, environment and sequence generators
    only print their skip message, and the top-level generator still
    writes [top.sv], instantiating [dut] as [u_dut] and running
    [dut_base_test]. *)
Theorem absent_dut_name cwd rows cfg :
  read_interface_csv rows = Ok cfg →
  (dut_name cfg = None ∨ ∃ d, dut_name cfg = Some d ∧ strip d = "") →
  generate_uvm_test cwd cfg =
    [ Print "No DUT name found in configuration. Skipping UVM test generation." ]
  ∧ generate_uvm_env cwd cfg =
    [ Print "No DUT name provided. Cannot generate env." ]
  ∧ generate_base_seq cwd cfg =
    [ Print "No DUT name found in config. Skipping base sequence generation." ]
  ∧ In (Write (top_sv_path cwd) (join nl (top_lines cfg)))
       (generate_top_sv_from_cfg cwd cfg)
  ∧ In "  dut u_dut (" (top_lines cfg)
  ∧ In ("    run_test(" +:+ dq +:+ "dut_base_test" +:+ dq +:+ ");") (top_lines cfg).
Proof.
  intros Hread Hdut.
  destruct (read_interface_csv_parsed _ _ Hread) as [Hd _].
  assert (dut_name cfg = None) as Hnone.
  { destruct Hdut as [H|(d & H & Hs)]; [done|].
    destruct (Hd d H) as [Hs' Ht]. rewrite Hs in Hs'. subst d. done. }
  unfold generate_uvm_test, generate_uvm_env, generate_base_seq, stem.
  rewrite Hnone. repeat split; try reflexivity.
  - unfold generate_top_sv_from_cfg. simpl. tauto.
  - unfold top_lines, top_dut_name. rewrite Hnone. in_app.
  - unfold top_lines, top_test_name, top_dut_name. rewrite Hnone. in_app.
Qed.

Lemma absent_dut_name_witness :
  let cfg := {| dut_name := None; num_interfaces := Some 1;
                interfaces := [clocked_master "i2c"] |} in
  generate_uvm_test "/work" cfg =
    [ Print "No DUT name found in configuration. Skipping UVM test generation." ]
  ∧ generate_uvm_env "/work" cfg =
    [ Print "No DUT name provided. Cannot generate env." ]
  ∧ generate_base_seq "/work" cfg =
    [ Print "No DUT name found in config. Skipping base sequence generation." ]
  ∧ In (Write (top_sv_path "/work") (join nl (top_lines cfg)))
       (generate_top_sv_from_cfg "/work" cfg)
  ∧ In "  dut u_dut (" (top_lines cfg)
  ∧ In ("    run_test(" +:+ dq +:+ "dut_base_test" +:+ dq +:+ ");") (top_lines cfg).
Proof.
  apply (absent_dut_name "/work"
           [ ["NUM_INTF"; "1"]; ["INTF"; "i2c"; "M"; "100"; "c1"; "r1"] ]).
  - reflexivity.
  - left. reflexivity.
Defined.

(** ** Interfaces the agent generator skips *)







(** ** Clocks *)



(** The agent generator on an interface it keeps: the agent file, then
    one file per component, monitor and coverage first. *)
Lemma agent_interface_kept cwd intf :
  truthy (agent_name intf) = true →
  agent_mode intf = "M" ∨ agent_mode intf = "S" →
  agent_interface cwd intf =
    [ Write (agent_file cwd intf) (concat (agent_chunks intf));
      Print ("Created agent class: " +:+ agent_file cwd intf);
      Append (readme_path cwd) (" -" +:+ agent_agent_class intf +:+ ".sv" +:+ nl) ]
    ++ flat_map (agent_component cwd intf) (components (agent_mode intf)).
Proof.
  intros Hname Hmode. unfold agent_interface. rewrite Hname.
  by destruct Hmode as [-> | ->].
Qed.




(** ** The name [nil] *)





(** ** Derived identifiers *)




(** ** The parser, row by row *)

Lemma read_rows_app pre post st :
  read_rows (pre ++ post) st =
    match read_rows pre st with
    | Ok st' => read_rows post st'
    | Raise e => Raise e
    end.
Proof.
  revert st. induction pre as [|raw pre IH]; intros st; simpl; [done|].
  destruct (read_row raw st); [apply IH|done].
Qed.

(** A [NUM_INTF] row whose value does not read as an integer raises,
    whatever was parsed before. *)
Lemma read_row_num_intf_raises raw k v rest st :
  clean_row raw = k :: v :: rest → row_key k = "NUM_INTF" → int v = None →
  read_row raw st = Raise ValueError.
Proof. intros Hrow Hk Hv. unfold read_row. by rewrite Hrow, Hk, Hv. Qed.

(** A [NUM_INTF] row whose value reads as [n] stores [n] and nothing else. *)
Lemma read_row_num_intf_stores raw k v rest n st :
  clean_row raw = k :: v :: rest → row_key k = "NUM_INTF" → int v = Some n →
  read_row raw st =
    Ok {| dut_name := dut_name st; num_interfaces := Some n;
          interfaces := interfaces st |}.
Proof. intros Hrow Hk Hv. unfold read_row. by rewrite Hrow, Hk, Hv. Qed.

(** C8. A [NUM_INTF] row with at least two non-blank cells whose second
    cell does not read as an integer makes the parser raise [ValueError],
    wherever the row stands; when the cell reads as an integer [n], the
    rows before it having been parsed into [st], parsing goes on from
    [st] with the count set to [n], whatever interfaces [st] holds. *)
Theorem num_intf_row pre raw post k v rest :
  clean_row raw = k :: v :: rest →
  row_key k = "NUM_INTF" →
  (int v = None → read_interface_csv (pre ++ raw :: post) = Raise ValueError)
  ∧ (∀ n st,
       int v = Some n →
       read_interface_csv pre = Ok st →
       read_interface_csv (pre ++ raw :: post) =
         read_rows post {| dut_name := dut_name st; num_interfaces := Some n;
                           interfaces := interfaces st |}).
Proof.
  intros Hrow Hk. unfold read_interface_csv. split.
  - intros Hv. rewrite read_rows_app.
    destruct (read_rows pre _) as [st|[]]; [|done].
    simpl. by rewrite (read_row_num_intf_raises raw k v rest).
  - intros n st Hv Hpre. rewrite read_rows_app, Hpre. simpl.
    by rewrite (read_row_num_intf_stores raw k v rest n).
Qed.

Lemma num_intf_row_witness :
  read_interface_csv
    ([ ["DUT_NAME"; "usb_ctrl"] ] ++ ["num intf"; " two "]
       :: [ ["INTF"; "i2c"; "M"; "100"; "c1"; "r1"] ])
  = Raise ValueError
  ∧ read_interface_csv
      ([ ["DUT_NAME"; "usb_ctrl"] ] ++ ["num intf"; " 5 "]
         :: [ ["INTF"; "i2c"; "M"; "100"; "c1"; "r1"] ])
    = Ok {| dut_name := Some "usb_ctrl"; num_interfaces := Some 5;
            interfaces := [clocked_master "i2c"] |}.
Proof.
  split.
  - apply (num_intf_row [ ["DUT_NAME"; "usb_ctrl"] ] ["num intf"; " two "]
             [ ["INTF"; "i2c"; "M"; "100"; "c1"; "r1"] ] "num intf" "two" []);
      reflexivity.
  - rewrite (proj2 (num_intf_row [ ["DUT_NAME"; "usb_ctrl"] ] ["num intf"; " 5 "]
                      [ ["INTF"; "i2c"; "M"; "100"; "c1"; "r1"] ] "num intf" "5" []
                      eq_refl eq_refl)
               5 {| dut_name := Some "usb_ctrl"; num_interfaces := None;
                    interfaces := [] |} eq_refl eq_refl).
    reflexivity.
Defined.

(** The count is not checked against the interfaces: five announced, one
    given, and the parser returns both. *)
Example num_intf_mismatch_accepted :
  read_interface_csv
    [ ["NUM_INTF"; "5"]; ["INTF"; "i2c"; "M"; "100"; "c1"; "r1"] ]
  = Ok {| dut_name := None; num_interfaces := Some 5;
          interfaces := [clocked_master "i2c"] |}.
Proof. reflexivity. Qed.

(** One row adds to the list the record [intf_row] gives for it, if any. *)
Lemma read_row_interfaces raw st st' :
  read_row raw st = Ok st' →
  interfaces st' =
    interfaces st ++ match intf_row raw with Some i => [i] | None => [] end.
Proof.
  unfold read_row, intf_row.
  destruct (clean_row raw) as [|k [|r1 rest1]];
    try (intros [= <-]; simpl; by rewrite app_nil_r).
  destruct (String.eqb (row_key k) "DUT_NAME") eqn:Hd.
  { apply eqb_true in Hd. rewrite Hd. intros [= <-]. simpl.
    destruct rest1 as [|? [|? [|? ?]]]; by rewrite app_nil_r. }
  destruct (String.eqb (row_key k) "NUM_INTF") eqn:Hn.
  { apply eqb_true in Hn. rewrite Hn.
    destruct (int r1); [|done]. intros [= <-]. simpl.
    destruct rest1 as [|? [|? [|? ?]]]; by rewrite app_nil_r. }
  destruct rest1 as [|r2 [|r3 [|r4 rest4]]];
    destruct (String.eqb (row_key k) "INTF");
    intros [= <-]; simpl; by rewrite ?app_nil_r.
Qed.

Lemma read_rows_interfaces rows st st' :
  read_rows rows st = Ok st' →
  interfaces st' = interfaces st ++ intf_records rows.
Proof.
  unfold intf_records. revert st.
  induction rows as [|raw rows IH]; intros st; simpl.
  - intros [= <-]. by rewrite app_nil_r.
  - destruct (read_row raw st) as [st1|] eqn:E; [|done].
    intros H. rewrite (IH _ H), (read_row_interfaces _ _ _ E).
    rewrite <- app_assoc. f_equal. by destruct (intf_row raw).
Qed.

Lemma writes_app a b : writes (a ++ b) = writes a ++ writes b.
Proof. apply omap_app. Qed.

Lemma writes_flat_map {A} (f : A → list op) l :
  writes (flat_map f l) = flat_map (fun x => writes (f x)) l.
Proof. induction l; simpl; [done|]. by rewrite writes_app, IHl. Qed.

(** C9. The interfaces of a parsed configuration are the records of the
    [INTF] rows with at least five non-blank cells, one per row, in row
    order, duplicates included; and that order is the one in which the
    top-level generator lists its instantiations, the environment
    generator its handles, and the agent generator its files. *)
Theorem interfaces_in_row_order cwd rows cfg :
  read_interface_csv rows = Ok cfg →
  interfaces cfg = intf_records rows
  ∧ (∃ a b c d,
        top_lines cfg =
          a ++ flat_map top_signal_decl (intf_records rows)
            ++ b ++ flat_map top_clock_gen (intf_records rows)
            ++ flat_map top_reset_pulse (intf_records rows)
            ++ c ++ flat_map top_intf_inst (intf_records rows)
            ++ d ++ flat_map top_config_db_set (intf_records rows)
            ++ ["  end" +:+ nl; "endmodule"])
  ∧ (∀ dut, ∃ a b c d,
        env_chunks dut (interfaces cfg) =
          a ++ map env_agent_decl (intf_records rows)
            ++ b ++ map env_agent_create (intf_records rows)
            ++ c ++ flat_map (env_agent_connect ((dut +:+ "_sbd") +:+ "_h"))
                             (intf_records rows)
            ++ d)
  ∧ writes (create_full_agent_and_components cwd cfg) =
      flat_map (fun intf => writes (agent_interface cwd intf)) (intf_records rows).
Proof.
  intros Hread.
  assert (interfaces cfg = intf_records rows) as Hrows.
  { apply (read_rows_interfaces rows _ cfg Hread). }
  split; [done|]. rewrite <- Hrows. split; [|split].
  - unfold top_lines.
    exists ["module top;" +:+ nl], [""], ["  // Interface Instantiations"],
      [ "";
        "  // DUT instantiation";
        "  " +:+ top_dut_name cfg +:+ " u_" +:+ lower (top_dut_name cfg) +:+ " (";
        "    // TODO: Connect ports using pif handles ";
        "  );" +:+ nl;
        "  // UVM run_test() call";
        "  initial begin";
        "    run_test(" +:+ dq +:+ top_test_name cfg +:+ dq +:+ ");";
        "  end" +:+ nl;
        "  // Passing interfaces to UVM via uvm_config_db";
        "  initial begin" ].
    reflexivity.
  - intros dut. unfold env_chunks. eexists _, _, _, _. reflexivity.
  - unfold create_full_agent_and_components.
    rewrite !writes_app, writes_flat_map. simpl. apply app_nil_r.
Qed.

Lemma interfaces_in_row_order_witness :
  interfaces sample_config = intf_records sample_rows
  ∧ (∃ a b c d,
        top_lines sample_config =
          a ++ flat_map top_signal_decl (intf_records sample_rows)
            ++ b ++ flat_map top_clock_gen (intf_records sample_rows)
            ++ flat_map top_reset_pulse (intf_records sample_rows)
            ++ c ++ flat_map top_intf_inst (intf_records sample_rows)
            ++ d ++ flat_map top_config_db_set (intf_records sample_rows)
            ++ ["  end" +:+ nl; "endmodule"])
  ∧ (∀ dut, ∃ a b c d,
        env_chunks dut (interfaces sample_config) =
          a ++ map env_agent_decl (intf_records sample_rows)
            ++ b ++ map env_agent_create (intf_records sample_rows)
            ++ c ++ flat_map (env_agent_connect ((dut +:+ "_sbd") +:+ "_h"))
                             (intf_records sample_rows)
            ++ d)
  ∧ writes (create_full_agent_and_components "/work" sample_config) =
      flat_map (fun intf => writes (agent_interface "/work" intf))
               (intf_records sample_rows).
Proof.
  apply (interfaces_in_row_order "/work" sample_rows sample_config).
  reflexivity.
Defined.

(** Two rows with one name give two records, in their order. *)
Example duplicate_names_kept :
  read_interface_csv
    [ ["INTF"; "b"; "S"; "10"; "c2"]; ["INTF"; "a"; "M"; "20"; "c1"];
      ["INTF"; "b"; "M"; "30"; "c3"] ]
  = Ok {| dut_name := None; num_interfaces := None;
          interfaces :=
            [ {| name := "b"; mode := "S"; speed := "10"; clk := "c2";
                 rst := None; rst_type := None |};
              {| name := "a"; mode := "M"; speed := "20"; clk := "c1";
                 rst := None; rst_type := None |};
              {| name := "b"; mode := "M"; speed := "30"; clk := "c3";
                 rst := None; rst_type := None |} ] |}.
Proof. reflexivity. Qed.

(** * Further properties of the code *)

(** ** The parser: failure, ignored rows, last value, clean records *)

Lemma read_row_raises raw st :
  read_row raw st = Raise ValueError ↔ bad_num_intf_row raw = true.
Proof.
  unfold read_row, bad_num_intf_row.
  destruct (clean_row raw) as [|k [|v rest]]; [done..|].
  destruct (String.eqb (row_key k) "DUT_NAME") eqn:Hd.
  { apply eqb_true in Hd. rewrite Hd. done. }
  destruct (String.eqb (row_key k) "NUM_INTF").
  { by destruct (int v). }
  destruct (String.eqb (row_key k) "INTF"); [|done].
  by destruct rest as [|? [|? [|? ?]]].
Qed.

(** The parser raises exactly when some [NUM_INTF] row has a value that
    does not read as an integer; no other row, however short or odd, makes
    it fail. *)
Theorem parser_raises_iff rows :
  read_interface_csv rows = Raise ValueError
  ↔ existsb bad_num_intf_row rows = true.
Proof.
  unfold read_interface_csv. generalize (Config None None []).
  induction rows as [|raw rows IH]; intros st; simpl; [done|].
  destruct (read_row raw st) as [st1|[]] eqn:E.
  - rewrite IH. destruct (bad_num_intf_row raw) eqn:Hb; [|done].
    apply read_row_raises with (st := st) in Hb. congruence.
  - apply read_row_raises in E. by rewrite E.
Qed.

Lemma read_row_foreign raw st : foreign_row raw → read_row raw st = Ok st.
Proof.
  unfold foreign_row, read_row.
  destruct (clean_row raw) as [|k [|v rest]]; [done..|].
  intros (Hd & Hn & Hi). apply eqb_false in Hd, Hn, Hi. by rewrite Hd, Hn, Hi.
Qed.

(** A blank row, or a row whose key is none of [DUT_NAME], [NUM_INTF] and
    [INTF], can be taken out of the input without changing what the parser
    returns. *)
Theorem foreign_row_ignored pre raw post :
  foreign_row raw →
  read_interface_csv (pre ++ raw :: post) = read_interface_csv (pre ++ post).
Proof.
  intros Hraw. unfold read_interface_csv. rewrite !read_rows_app.
  destruct (read_rows pre _) as [st|]; [|done].
  simpl. by rewrite read_row_foreign.
Qed.

Lemma foreign_row_ignored_witness :
  read_interface_csv
    ([ ["DUT_NAME"; "usb_ctrl"] ] ++ ["# comment"; "INTF"; "x"; "M"; "1"; "c"]
       :: [ ["INTF"; "i2c"; "M"; "100"; "c1"; "r1"] ])
  = read_interface_csv
      ([ ["DUT_NAME"; "usb_ctrl"] ] ++ [ ["INTF"; "i2c"; "M"; "100"; "c1"; "r1"] ]).
Proof.
  apply (foreign_row_ignored [ ["DUT_NAME"; "usb_ctrl"] ]
           ["# comment"; "INTF"; "x"; "M"; "1"; "c"]).
  vm_compute. repeat split; discriminate.
Defined.

Lemma omap_step {A B} (f : A → option B) x l :
  omap f (x :: l) = match f x with Some y => y :: omap f l | None => omap f l end.
Proof. reflexivity. Qed.

Lemma read_row_last raw st st' :
  read_row raw st = Ok st' →
  dut_name st' = match dut_row raw with Some v => Some v | None => dut_name st end
  ∧ num_interfaces st' =
      match num_row raw with Some n => Some n | None => num_interfaces st end.
Proof.
  unfold read_row, dut_row, num_row.
  destruct (clean_row raw) as [|k [|v rest]]; try (by intros [= <-]).
  destruct (String.eqb (row_key k) "DUT_NAME"); [by intros [= <-]|].
  destruct (String.eqb (row_key k) "NUM_INTF").
  { destruct (int v); [|done]. by intros [= <-]. }
  destruct (String.eqb (row_key k) "INTF"); [|by intros [= <-]].
  destruct rest as [|? [|? [|? ?]]]; by intros [= <-].
Qed.

Lemma read_rows_last rows st st' :
  read_rows rows st = Ok st' →
  dut_name st' =
    match last (omap dut_row rows) with Some v => Some v | None => dut_name st end
  ∧ num_interfaces st' =
      match last (omap num_row rows) with
      | Some n => Some n
      | None => num_interfaces st
      end.
Proof.
  revert st. induction rows as [|raw rows IH]; intros st; cbn [read_rows].
  - by intros [= <-].
  - destruct (read_row raw st) as [st1|] eqn:E; [|done].
    intros H. destruct (IH _ H) as [Hd Hn].
    destruct (read_row_last _ _ _ E) as [Hd1 Hn1].
    rewrite Hd, Hn, Hd1, Hn1, !omap_step. split.
    + destruct (dut_row raw); [|done].
      rewrite last_cons. by destruct (last (omap dut_row rows)).
    + destruct (num_row raw); [|done].
      rewrite last_cons. by destruct (last (omap num_row rows)).
Qed.

(** When the parser returns, the DUT name is the value of the last
    [DUT_NAME] row that has one, and the count that of the last [NUM_INTF]
    row that has one; each is absent when there is no such row. *)
Theorem parser_last_row_wins rows cfg :
  read_interface_csv rows = Ok cfg →
  dut_name cfg = last (omap dut_row rows)
  ∧ num_interfaces cfg = last (omap num_row rows).
Proof.
  intros H. destruct (read_rows_last _ _ _ H) as [Hd Hn]. simpl in *.
  rewrite Hd, Hn. split.
  - by destruct (last (omap dut_row rows)).
  - by destruct (last (omap num_row rows)).
Qed.

Lemma parser_last_row_wins_witness :
  let rows := [ ["DUT_NAME"; "first"]; ["NUM_INTF"; "3"]; ["dut name"; " second "];
                ["Num_Intf"; "7"]; ["DUT_NAME"] ] in
  dut_name {| dut_name := Some "second"; num_interfaces := Some 7; interfaces := [] |}
  = last (omap dut_row rows)
  ∧ num_interfaces
      {| dut_name := Some "second"; num_interfaces := Some 7; interfaces := [] |}
    = last (omap num_row rows).
Proof.
  intros rows. apply (parser_last_row_wins rows). reflexivity.
Defined.

Lemma strip_literal_one : strip "1" = "1".
Proof. reflexivity. Qed.

Lemma make_interface_clean r1 r2 r3 r4 rest :
  clean_cell r1 → clean_cell r2 → clean_cell r3 → clean_cell r4 →
  clean_record (make_interface r1 r2 r3 r4 rest).
Proof.
  intros H1 H2 H3 H4. unfold make_interface, reset_info.
  destruct rest as [|r5 rest]; [by split|].
  destruct (contains ","%char r5).
  - destruct (split ","%char r5) as [|f0 [|f1 fs]]; split; simpl; try done;
      intros ? [= <-]; apply strip_strip || reflexivity.
  - split; simpl; try done; intros ? [= <-]; apply strip_strip || reflexivity.
Qed.

Lemma read_row_clean raw st st' :
  Forall clean_record (interfaces st) →
  read_row raw st = Ok st' → Forall clean_record (interfaces st').
Proof.
  intros Hst. unfold read_row.
  pose proof (clean_row_cells raw) as Hc.
  destruct (clean_row raw) as [|k [|r1 rest1]]; try (by intros [= <-]).
  destruct (String.eqb (row_key k) "DUT_NAME"); [by intros [= <-]|].
  destruct (String.eqb (row_key k) "NUM_INTF").
  { destruct (int r1); [|done]. by intros [= <-]. }
  destruct (String.eqb (row_key k) "INTF"); [|by intros [= <-]].
  destruct rest1 as [|r2 [|r3 [|r4 rest4]]]; try (by intros [= <-]).
  intros [= <-]. simpl. apply Forall_app. split; [done|].
  repeat (apply Forall_cons in Hc as [? Hc]).
  constructor; [|constructor]. by apply make_interface_clean.
Qed.

(** Every record the parser returns has a name, a mode, a frequency and a
    clock that are stripped and non-empty; its reset name and polarity are
    stripped; and it has a polarity exactly when it has a reset name. *)
Theorem parsed_records_clean rows cfg intf :
  read_interface_csv rows = Ok cfg →
  In intf (interfaces cfg) →
  clean_record intf.
Proof.
  intros Hread Hin.
  assert (Forall clean_record (interfaces cfg)) as Hall.
  { revert Hread. unfold read_interface_csv.
    assert (Forall clean_record (interfaces (Config None None []))) as H0
      by constructor.
    revert H0. generalize (Config None None []).
    induction rows as [|raw rows IH]; intros st Hst; simpl.
    - by intros [= <-].
    - destruct (read_row raw st) as [st1|] eqn:E; [|done].
      apply IH. by eapply read_row_clean. }
  rewrite List.Forall_forall in Hall. by apply Hall.
Qed.

Lemma parsed_records_clean_witness : clean_record i2c.
Proof.
  apply (parsed_records_clean sample_rows sample_config i2c).
  - reflexivity.
  - simpl. auto.
Defined.

(** ** The reset cell *)

Lemma split_no_sep c a : contains c a = false → split c a = [a].
Proof.
  induction a as [|x a IH]; simpl; [done|].
  destruct (Ascii.eqb x c); [done|]. simpl. intros H. by rewrite IH.
Qed.

Lemma split_first_sep c a b :
  contains c a = false →
  split c (a +:+ String c b) = a :: split c b.
Proof.
  induction a as [|x a IH]; simpl.
  - intros _. by rewrite Ascii.eqb_refl.
  - destruct (Ascii.eqb x c); [done|]. simpl. intros H. by rewrite IH.
Qed.

Lemma contains_app c a b : contains c (a +:+ b) = contains c a || contains c b.
Proof.
  induction a as [|x a IH]; simpl; [done|]. by rewrite IH, orb_assoc.
Qed.

(** The three shapes of the optional sixth cell.  Without a comma, the
    cell is the reset name and the polarity is ["1"].  With one, the reset
    name is what precedes the first comma and the polarity what stands
    between the first and the second, both stripped and otherwise kept as
    written; what follows a second comma, and any further cell of the row,
    is dropped. *)
Theorem reset_cell_shapes a b c rest :
  contains ","%char a = false → contains ","%char b = false →
  reset_info (a :: rest) = (Some (strip a), Some "1")
  ∧ reset_info ((a +:+ "," +:+ b) :: rest) = (Some (strip a), Some (strip b))
  ∧ reset_info ((a +:+ "," +:+ b +:+ "," +:+ c) :: rest)
    = (Some (strip a), Some (strip b)).
Proof.
  intros Ha Hb. unfold reset_info. rewrite Ha. split; [done|]. split.
  - rewrite contains_app. simpl. rewrite orb_true_r.
    change (a +:+ "," +:+ b) with (a +:+ String ","%char b).
    by rewrite split_first_sep, (split_no_sep _ b).
  - rewrite contains_app. simpl. rewrite orb_true_r.
    change (a +:+ "," +:+ b +:+ "," +:+ c)
      with (a +:+ String ","%char (b +:+ String ","%char c)).
    by rewrite split_first_sep, split_first_sep.
Qed.

Lemma reset_cell_shapes_witness :
  reset_info [" rst_n "; "ignored"] = (Some (strip " rst_n "), Some "1")
  ∧ reset_info [" rst_n " +:+ "," +:+ " 0 "; "ignored"]
    = (Some (strip " rst_n "), Some (strip " 0 "))
  ∧ reset_info [" rst_n " +:+ "," +:+ " 0 " +:+ "," +:+ "x,y"; "ignored"]
    = (Some (strip " rst_n "), Some (strip " 0 ")).
Proof.
  apply (reset_cell_shapes " rst_n " " 0 " "x,y" ["ignored"]); reflexivity.
Defined.

(** ** What the top-level generator emits, and when *)

Lemma top_reset_pulse_token_witness :
  top_reset_pulse spi_slave =
    [ "  // " +:+ "spi_rst" +:+ " reset pulse using @" +:+ clk spi_slave +:+ ", active "
        +:+ (if bool_decide ("0" = "1") then "high" else "low");
      "  initial begin";
      "    " +:+ "spi_rst" +:+ " = " +:+ (if bool_decide ("0" = "1") then "1" else "0") +:+ ";";
      "    @(posedge " +:+ clk spi_slave +:+ ");";
      "    " +:+ "spi_rst" +:+ " = " +:+ (if bool_decide ("0" = "1") then "0" else "1") +:+ ";";
      "  end" +:+ nl ].
Proof.
  apply (top_reset_pulse_token spi_slave "spi_rst" "0"); try reflexivity.
  discriminate.
Defined.

Lemma defined_true s : defined s = true ↔ truthy s = true ∧ lower s ≠ "nil".
Proof.
  unfold defined. rewrite andb_true_iff, negb_true_iff. by rewrite eqb_false.
Qed.

(** A reset pulse is emitted exactly when the clock and the reset are
    both defined and the polarity token is not empty; the reset signal is
    declared whenever it is defined, so a reset with no clock, or with an
    empty polarity, is declared and never driven. *)
Theorem reset_pulse_iff intf :
  (top_reset_pulse intf ≠ []
   ↔ defined (clk intf) = true
     ∧ (∃ r, rst intf = Some r ∧ defined r = true)
     ∧ truthy_opt (rst_type intf) = true)
  ∧ (∀ r, rst intf = Some r → defined r = true →
          In ("  logic " +:+ r +:+ ";") (top_signal_decl intf)).
Proof.
  split.
  - unfold top_reset_pulse, defined.
    destruct (truthy (clk intf)); simpl;
      [|split; [done|by intros [[=] _]]].
    destruct (String.eqb (lower (clk intf)) "nil"); simpl;
      [split; [done|by intros [[=] _]]|].
    destruct (rst intf) as [r|]; [|split; [done|by intros (_ & (? & [=] & _) & _)]].
    destruct (truthy r) eqn:Hr; simpl.
    2:{ split; [done|]. intros (_ & (r' & [= <-] & H) & _).
        by rewrite Hr in H. }
    destruct (String.eqb (lower r) "nil") eqn:Hn; simpl.
    { split; [done|]. intros (_ & (r' & [= <-] & H) & _).
      by rewrite Hr, Hn in H. }
    destruct (truthy_opt (rst_type intf)); simpl.
    + split; [|done]. intros _. split; [done|]. split; [|done].
      exists r. by rewrite Hr, Hn.
    + split; [done|by intros (_ & _ & [=])].
  - intros r Hr Hd. unfold top_signal_decl. rewrite Hr, Hd.
    apply in_or_app. right. simpl. auto.
Qed.

Lemma lower_char_n a : lower_char a = "n"%char → a = "n"%char ∨ a = "N"%char.
Proof.
  destruct a as [[] [] [] [] [] [] [] []]; vm_compute; intros H;
    first [discriminate H | by left | by right].
Qed.

Lemma lower_char_i a : lower_char a = "i"%char → a = "i"%char ∨ a = "I"%char.
Proof.
  destruct a as [[] [] [] [] [] [] [] []]; vm_compute; intros H;
    first [discriminate H | by left | by right].
Qed.

Lemma lower_char_l a : lower_char a = "l"%char → a = "l"%char ∨ a = "L"%char.
Proof.
  destruct a as [[] [] [] [] [] [] [] []]; vm_compute; intros H;
    first [discriminate H | by left | by right].
Qed.

Lemma int_of_nil s : lower s = "nil" → int s = None.
Proof.
  destruct s as [|a [|b [|c [|? ?]]]]; try discriminate.
  unfold lower. simpl. intros [= Ha Hb Hc].
  destruct (lower_char_n _ Ha) as [-> | ->],
           (lower_char_i _ Hb) as [-> | ->],
           (lower_char_l _ Hc) as [-> | ->]; reflexivity.
Qed.

(** Clock-generation lines are emitted for an interface exactly when its
    clock is defined and its frequency reads as a positive integer. *)
Theorem clock_gen_iff intf :
  top_clock_gen intf ≠ []
  ↔ defined (clk intf) = true ∧ ∃ z, int (speed intf) = Some z ∧ 0 < z.
Proof.
  unfold top_clock_gen, defined.
  destruct (truthy (clk intf)); simpl; [|split; [done|by intros [[=] _]]].
  destruct (String.eqb (lower (clk intf)) "nil"); simpl;
    [split; [done|by intros [[=] _]]|].
  destruct (truthy (speed intf)) eqn:Hs; simpl.
  2:{ split; [done|]. intros (_ & z & Hz & _).
      destruct (speed intf); [discriminate Hz|discriminate Hs]. }
  destruct (String.eqb (lower (speed intf)) "nil") eqn:Hn; simpl.
  { split; [done|]. intros (_ & z & Hz & _).
    apply eqb_true in Hn. by rewrite (int_of_nil _ Hn) in Hz. }
  destruct (int (speed intf)) as [z|]; [|split; [done|by intros (_ & ? & [=] & _)]].
  destruct (z <=? 0) eqn:Hz.
  - split; [done|]. intros (_ & z' & [= <-] & Hpos).
    apply Z.leb_le in Hz. lia.
  - split; [|done]. intros _. split; [done|]. exists z.
    apply Z.leb_gt in Hz. done.
Qed.

(** ** Appending strings, and paths *)

Lemma last_char_app a b : b ≠ "" → last_char (a +:+ b) = last_char b.
Proof.
  intros Hb. induction a as [|x a IH]; [done|].
  rewrite app_cons_s. cbn [last_char]. rewrite IH.
  destruct (a +:+ b) eqn:E; [|done].
  destruct a; [by cbn in E|discriminate E].
Qed.

Lemma endswith_sep_last s : endswith_sep s = bool_decide (last_char s = Some "/"%char).
Proof.
  induction s as [|x s IH]; [done|]. cbn [endswith_sep last_char].
  destruct s as [|y s]; [|done].
  destruct (Ascii.eqb_spec x "/"%char) as [->|Hne]; [done|].
  rewrite bool_decide_eq_false_2; [done|congruence].
Qed.

Lemma path_join2_last p b : b ≠ "" → last_char (path_join2 p b) = last_char b.
Proof.
  intros Hb. unfold path_join2. destruct (startswith_sep b); [done|].
  destruct (_ || _); [by apply last_char_app|].
  rewrite last_char_app; [by apply last_char_app|].
  by destruct b.
Qed.

Lemma path_join2_rooted p b : startswith_sep b = true → path_join2 p b = b.
Proof. unfold path_join2. by intros ->. Qed.

Lemma path_join2_inside p b :
  startswith_sep b = false → p ≠ "" → endswith_sep p = false →
  path_join2 p b = p +:+ "/" +:+ b.
Proof.
  unfold path_join2. intros -> Hp ->. apply truthy_true in Hp. by rewrite Hp.
Qed.

Lemma sv_last x : last_char (x +:+ ".sv") = Some "v"%char.
Proof. by rewrite last_char_app. Qed.

Lemma readme_path_last cwd : last_char (readme_path cwd) = Some "t"%char.
Proof. unfold readme_path, path_join. simpl. by rewrite path_join2_last. Qed.

Lemma agents_dir_open cwd :
  agents_dir cwd ≠ "" ∧ endswith_sep (agents_dir cwd) = false.
Proof.
  unfold agents_dir, path_join. simpl.
  assert (last_char (path_join2 (path_join2 (path_join2 cwd "verif") "ENV") "AGENTS")
          = Some "S"%char) as H by (by rewrite path_join2_last).
  split.
  - intros E. by rewrite E in H.
  - rewrite endswith_sep_last, H. done.
Qed.

(** ** Where the agent files go *)

(** For an interface whose lower-cased name is not empty and neither
    starts nor ends with a slash, the agent directory is
    [<cwd-based AGENTS directory>/<name>] and the agent file
    [<name>_agent.sv] inside it. *)
Theorem agent_files_in_tree cwd intf :
  agent_name intf ≠ "" →
  startswith_sep (agent_name intf) = false →
  endswith_sep (agent_name intf) = false →
  agent_dir cwd intf = agents_dir cwd +:+ "/" +:+ agent_name intf
  ∧ agent_file cwd intf =
      (agents_dir cwd +:+ "/" +:+ agent_name intf) +:+ "/"
        +:+ agent_agent_class intf +:+ ".sv"
  ∧ ∀ suffix,
      comp_file cwd intf suffix =
        (agents_dir cwd +:+ "/" +:+ agent_name intf) +:+ "/"
          +:+ agent_name intf +:+ "_" +:+ suffix +:+ ".sv".
Proof.
  intros Hn Hs He. destruct (agents_dir_open cwd) as [Hd1 Hd2].
  assert (agent_dir cwd intf = agents_dir cwd +:+ "/" +:+ agent_name intf) as Hdir.
  { unfold agent_dir, path_join. simpl. by apply path_join2_inside. }
  assert (agent_dir cwd intf ≠ "" ∧ endswith_sep (agent_dir cwd intf) = false)
    as [Ha1 Ha2].
  { rewrite Hdir. split.
    - intros E. apply (f_equal truthy) in E. rewrite truthy_app in E.
      apply truthy_true in Hd1. by rewrite Hd1 in E.
    - rewrite endswith_sep_last in *.
      rewrite <- app_assoc_s, last_char_app by done. done. }
  split; [done|]. split.
  - unfold agent_file, path_join. simpl. rewrite path_join2_inside; try done.
    + by rewrite Hdir.
    + unfold agent_agent_class.
      rewrite app_assoc_s, startswith_sep_app by done. done.
  - intros suffix. unfold comp_file, path_join. simpl.
    rewrite path_join2_inside; try done.
    + by rewrite Hdir.
    + by rewrite startswith_sep_app.
Qed.

Lemma agent_files_in_tree_witness :
  agent_dir "/work" i2c = agents_dir "/work" +:+ "/" +:+ agent_name i2c
  ∧ agent_file "/work" i2c =
      (agents_dir "/work" +:+ "/" +:+ agent_name i2c) +:+ "/"
        +:+ agent_agent_class i2c +:+ ".sv"
  ∧ ∀ suffix,
      comp_file "/work" i2c suffix =
        (agents_dir "/work" +:+ "/" +:+ agent_name i2c) +:+ "/"
          +:+ agent_name i2c +:+ "_" +:+ suffix +:+ ".sv".
Proof. apply (agent_files_in_tree "/work" i2c); [discriminate|reflexivity..]. Defined.

(** For an interface whose name starts with a slash, [os.path.join] drops
    what precedes: the agent directory is the name itself, and the agent
    and component files are [<name>_agent.sv] and [<name>_<suffix>.sv]
    beside it, whatever the working directory: outside the output tree. *)
Theorem agent_files_escape cwd intf :
  startswith_sep (agent_name intf) = true →
  agent_dir cwd intf = agent_name intf
  ∧ agent_file cwd intf = agent_agent_class intf +:+ ".sv"
  ∧ ∀ suffix,
      comp_file cwd intf suffix = agent_name intf +:+ "_" +:+ suffix +:+ ".sv".
Proof.
  intros Hs.
  assert (agent_name intf ≠ "") as Hn by (intros E; by rewrite E in Hs).
  split; [|split; [|intros suffix]].
  - unfold agent_dir, path_join. simpl. by apply path_join2_rooted.
  - unfold agent_file, path_join. simpl. apply path_join2_rooted.
    unfold agent_agent_class. by rewrite app_assoc_s, startswith_sep_app.
  - unfold comp_file, path_join. simpl. apply path_join2_rooted.
    by rewrite startswith_sep_app.
Qed.

Lemma agent_files_escape_witness :
  agent_dir "/work" rooted = agent_name rooted
  ∧ agent_file "/work" rooted = agent_agent_class rooted +:+ ".sv"
  ∧ ∀ suffix,
      comp_file "/work" rooted suffix = agent_name rooted +:+ "_" +:+ suffix +:+ ".sv".
Proof. apply (agent_files_escape "/work" rooted). reflexivity. Defined.

Example rooted_name_parses_and_escapes :
  read_interface_csv [ ["INTF"; "/tmp/x"; "M"; "10"; "c"] ]
  = Ok {| dut_name := None; num_interfaces := None; interfaces := [rooted] |}
  ∧ writes (agent_interface "/work" rooted) =
      [ "/tmp/x_agent.sv"; "/tmp/x_mon.sv"; "/tmp/x_cov.sv";
        "/tmp/x_drv.sv"; "/tmp/x_sqr.sv" ].
Proof. split; reflexivity. Qed.

(** ** The summary after a run *)

Lemma concat_app_s a b : concat (a ++ b) = concat a +:+ concat b.
Proof.
  induction a as [|x a IH]; [done|]. cbn [concat app].
  change ((x :: a) ++ b) with (x :: (a ++ b)). cbn [concat].
  by rewrite IH, app_assoc_s.
Qed.

Lemma appended_app a b : appended (a ++ b) = appended a +:+ appended b.
Proof. unfold appended. by rewrite omap_app, concat_app_s. Qed.

Lemma appended_cons_write p c ops : appended (Write p c :: ops) = appended ops.
Proof. reflexivity. Qed.

Lemma appended_cons_print t ops : appended (Print t :: ops) = appended ops.
Proof. reflexivity. Qed.

Lemma appended_cons_append p c ops :
  appended (Append p c :: ops) = c +:+ appended ops.
Proof. reflexivity. Qed.

(** Appends to a file that exists, with no write to it, add their text in
    order. *)
Lemma exec_only_appends p ops w s :
  Forall (only_appends_at p) ops → files w !! p = Some s →
  files (exec ops w) !! p = Some (s +:+ appended ops).
Proof.
  intros Hops. revert w s.
  induction Hops as [|[q c|q c|t] ops Ho _ IH]; intros w s Hs;
    [|rewrite exec_cons..]; cbn [only_appends_at] in *.
  - by rewrite app_nil_r_s.
  - rewrite appended_cons_write. apply IH. simpl.
    by rewrite lookup_insert_ne.
  - subst q. rewrite appended_cons_append, <- app_assoc_s. apply IH. simpl.
    by rewrite lookup_insert_eq, Hs.
  - rewrite appended_cons_print. by apply IH.
Qed.

Lemma ends_v_not_readme cwd p b :
  last_char b = Some "v"%char → path_join2 p b ≠ readme_path cwd.
Proof.
  intros Hb E. apply (f_equal last_char) in E.
  rewrite readme_path_last, path_join2_last, Hb in E; [done|].
  intros ->. done.
Qed.

Lemma sv_not_readme cwd p x :
  path_join2 p (x +:+ ".sv") ≠ readme_path cwd.
Proof. apply ends_v_not_readme, sv_last. Qed.

Lemma comp_file_not_readme cwd intf suffix :
  comp_file cwd intf suffix ≠ readme_path cwd.
Proof.
  unfold comp_file, path_join. simpl. apply ends_v_not_readme.
  rewrite last_char_app by done. rewrite last_char_app; [apply sv_last|].
  by destruct suffix.
Qed.

Lemma agent_component_effects cwd intf l :
  Forall (only_appends_at (readme_path cwd)) (flat_map (agent_component cwd intf) l)
  ∧ appended (flat_map (agent_component cwd intf) l)
    = concat (map (agent_component_line intf) l).
Proof.
  induction l as [|[suffix base] l [IH1 IH2]]; [by split|]. split.
  - cbn [flat_map agent_component]. apply Forall_app. split; [|done].
    repeat constructor. apply comp_file_not_readme.
  - cbn [flat_map agent_component map concat]. rewrite appended_app, IH2.
    rewrite appended_cons_write, appended_cons_print, appended_cons_append.
    unfold appended at 1. cbn [omap list_omap concat]. by rewrite app_nil_r_s.
Qed.

Lemma agent_interface_effects cwd intf :
  Forall (only_appends_at (readme_path cwd)) (agent_interface cwd intf)
  ∧ appended (agent_interface cwd intf) = agent_interface_lines intf.
Proof.
  unfold agent_interface, agent_interface_lines.
  destruct (_ || _); [by split|].
  destruct (agent_component_effects cwd intf (components (agent_mode intf)))
    as [H1 H2].
  split.
  - apply Forall_app. split; [|done]. repeat constructor.
    unfold agent_file, path_join. simpl. apply sv_not_readme.
  - rewrite appended_app, H2.
    rewrite appended_cons_write, appended_cons_print, appended_cons_append.
    unfold appended at 1. cbn [omap list_omap concat]. by rewrite app_nil_r_s.
Qed.

Lemma create_full_agent_effects cwd cfg :
  Forall (only_appends_at (readme_path cwd)) (create_full_agent_and_components cwd cfg)
  ∧ appended (create_full_agent_and_components cwd cfg) = agent_section cfg.
Proof.
  unfold create_full_agent_and_components, agent_section.
  assert (Forall (only_appends_at (readme_path cwd))
            (flat_map (agent_interface cwd) (interfaces cfg))
          ∧ appended (flat_map (agent_interface cwd) (interfaces cfg))
            = concat (map agent_interface_lines (interfaces cfg))) as [H1 H2].
  { induction (interfaces cfg) as [|i l [IH1 IH2]]; [by split|].
    destruct (agent_interface_effects cwd i) as [Hi1 Hi2]. split.
    - cbn [flat_map]. apply Forall_app. by split.
    - cbn [flat_map map concat]. by rewrite appended_app, Hi2, IH2. }
  split.
  - apply Forall_app. split; [by repeat constructor|].
    apply Forall_app. split; [done|]. by repeat constructor.
  - rewrite !appended_app, H2. rewrite appended_cons_append.
    unfold appended at 1. cbn [omap list_omap concat].
    rewrite appended_cons_append, !appended_cons_print.
    unfold appended. cbn [omap list_omap concat].
    by rewrite !app_nil_r_s.
Qed.

Lemma generate_uvm_test_effects cwd cfg :
  Forall (only_appends_at (readme_path cwd)) (generate_uvm_test cwd cfg)
  ∧ appended (generate_uvm_test cwd cfg) = test_section cfg.
Proof.
  unfold generate_uvm_test, test_section.
  destruct (truthy (stem cfg)); simpl; [|by split; [repeat constructor|]].
  split.
  - repeat constructor. unfold test_file_path, path_join. simpl.
    apply sv_not_readme.
  - unfold appended. cbn [omap list_omap concat]. by rewrite app_nil_r_s.
Qed.

Lemma generate_uvm_env_effects cwd cfg :
  Forall (only_appends_at (readme_path cwd)) (generate_uvm_env cwd cfg)
  ∧ appended (generate_uvm_env cwd cfg) = env_section cfg.
Proof.
  unfold generate_uvm_env, env_section.
  destruct (truthy (stem cfg)); simpl; [|by split; [repeat constructor|]].
  split.
  - repeat constructor. unfold env_file_path, path_join. simpl.
    apply sv_not_readme.
  - unfold appended. cbn [omap list_omap concat]. by rewrite app_nil_r_s.
Qed.

Lemma generate_base_seq_effects cwd cfg :
  Forall (only_appends_at (readme_path cwd)) (generate_base_seq cwd cfg)
  ∧ appended (generate_base_seq cwd cfg) = seq_section cfg.
Proof.
  unfold generate_base_seq, seq_section.
  destruct (truthy (stem cfg)); simpl; [|by split; [repeat constructor|]].
  split.
  - repeat constructor. unfold seq_file, path_join. simpl.
    apply sv_not_readme.
  - unfold appended. cbn [omap list_omap concat]. by rewrite app_nil_r_s.
Qed.

Lemma exec_prints_files l w :
  Forall (fun o => match o with Print _ => True | _ => False end) l →
  files (exec l w) = files w.
Proof.
  intros H. revert w. induction H as [|[| |t] l Ho _ IH]; intros w; try done.
  rewrite exec_cons. by rewrite IH.
Qed.

(** Whatever the output tree held before, the summary after a run is the
    section of the top-level generator followed by those of the test,
    environment, agent and sequence generators, in the order in which
    they ran; a generator that skipped contributes nothing. *)
Theorem summary_after_run cwd cfg w :
  files (exec (generate_all cwd cfg) w) !! readme_path cwd
  = Some (summary_text cfg).
Proof.
  unfold generate_all, summary_text.
  rewrite 3!exec_app.
  set (w0 := exec [Print rule] (exec (create_uvm_tb_dirs cwd) (exec (print_config cfg) w))).
  rewrite exec_app.
  assert (files (exec (generate_top_sv_from_cfg cwd cfg) w0) !! readme_path cwd
          = Some (join nl (top_readme_lines cfg))) as Htop.
  { unfold generate_top_sv_from_cfg, exec. simpl. by rewrite lookup_insert_eq. }
  destruct (generate_uvm_test_effects cwd cfg) as [Ht1 Ht2].
  destruct (generate_uvm_env_effects cwd cfg) as [He1 He2].
  destruct (create_full_agent_effects cwd cfg) as [Ha1 Ha2].
  destruct (generate_base_seq_effects cwd cfg) as [Hs1 Hs2].
  rewrite (exec_only_appends (readme_path cwd) _ _ (join nl (top_readme_lines cfg))).
  - by rewrite !appended_app, Ht2, He2, Ha2, Hs2.
  - apply Forall_app; split; [done|]. apply Forall_app; split; [done|].
    apply Forall_app; by split.
  - exact Htop.
Qed.

(** ** Interfaces that share a name *)

Lemma length_app_s (a b : string) :
  String.length (a +:+ b) = (String.length a + String.length b)%nat.
Proof. induction a as [|x a IH]; [done|]. rewrite app_cons_s. simpl. by rewrite IH. Qed.

Lemma app_inv_tail_s (a b c : string) : a +:+ c = b +:+ c → a = b.
Proof.
  revert b. induction a as [|x a IH]; intros [|y b] E.
  - done.
  - apply (f_equal String.length) in E. rewrite !length_app_s in E. simpl in E. lia.
  - apply (f_equal String.length) in E. rewrite !length_app_s in E. simpl in E. lia.
  - rewrite !app_cons_s in E. injection E as -> E. f_equal. by apply IH.
Qed.

Lemma comp_file_not_agent_file cwd intf suffix :
  agent_name intf ≠ "" → suffix ≠ "agent" →
  comp_file cwd intf suffix ≠ agent_file cwd intf.
Proof.
  intros Hn Hs. unfold comp_file, agent_file, path_join. simpl. intros E.
  apply path_join2_inj in E.
  - unfold agent_agent_class in E. rewrite app_assoc_s in E.
    apply (inj (String.app (agent_name intf))) in E.
    apply (inj (String.app "_")) in E.
    apply (app_inv_tail_s suffix "agent" ".sv") in E. by apply Hs.
  - unfold agent_agent_class. by rewrite app_assoc_s, !startswith_sep_app.
Qed.

Lemma agent_file_not_readme cwd intf : agent_file cwd intf ≠ readme_path cwd.
Proof. unfold agent_file, path_join. simpl. apply sv_not_readme. Qed.

Lemma agent_component_untouched cwd intf p l :
  p ≠ readme_path cwd →
  (∀ c, In c l → comp_file cwd intf (fst c) ≠ p) →
  p ∉ touched (flat_map (agent_component cwd intf) l).
Proof.
  intros Hr. induction l as [|[suffix base] l IH]; intros Hl.
  - set_solver.
  - cbn [flat_map agent_component]. rewrite touched_app. cbn [touched].
    assert (comp_file cwd intf suffix ≠ p) by (apply (Hl (suffix, base)); by left).
    assert (p ∉ touched (flat_map (agent_component cwd intf) l)).
    { apply IH. intros c Hc. apply Hl. by right. }
    set_solver.
Qed.

(** The agent file of the last interface of the list, when the agent
    generator keeps it (non-empty name, mode M or S), holds the agent class
    of that interface after the generator ran: an earlier interface of the
    same name wrote to the same path and is overwritten without notice. *)
Theorem last_interface_wins cwd cfg before intf w :
  interfaces cfg = before ++ [intf] →
  truthy (agent_name intf) = true →
  agent_mode intf = "M" ∨ agent_mode intf = "S" →
  (∀ other, agent_name other = agent_name intf →
            agent_file cwd other = agent_file cwd intf)
  ∧ files (exec (create_full_agent_and_components cwd cfg) w) !! agent_file cwd intf
    = Some (concat (agent_chunks intf)).
Proof.
  intros Hl Hn Hm. split.
  { intros other Ho. unfold agent_file, agent_dir, agent_agent_class.
    by rewrite Ho. }
  unfold create_full_agent_and_components. rewrite Hl, flat_map_app.
  cbn [flat_map]. rewrite app_nil_r.
  rewrite (agent_interface_kept cwd intf Hn Hm).
  rewrite !exec_app. rewrite (exec_cons (Write _ _)).
  rewrite exec_untouched. 2:{
    cbn [touched]. pose proof (agent_file_not_readme cwd intf).
    set_solver. }
  rewrite exec_untouched. 2:{
    apply agent_component_untouched; [apply agent_file_not_readme|].
    intros c Hc. apply comp_file_not_agent_file.
    - by apply truthy_true.
    - unfold components in Hc.
      destruct (String.eqb (agent_mode intf) "M"); simpl in Hc;
        intuition (subst; simpl; discriminate). }
  rewrite exec_untouched. 2:{
    cbn [touched]. pose proof (agent_file_not_readme cwd intf).
    set_solver. }
  simpl. apply lookup_insert_eq.
Qed.

Lemma last_interface_wins_witness :
  (∀ other, agent_name other = agent_name i2c_again →
            agent_file "/work" other = agent_file "/work" i2c_again)
  ∧ files (exec (create_full_agent_and_components "/work"
                   {| dut_name := None; num_interfaces := None;
                      interfaces := [i2c] ++ [i2c_again] |}) empty_world)
      !! agent_file "/work" i2c_again
    = Some (concat (agent_chunks i2c_again)).
Proof.
  apply (last_interface_wins "/work" _ [i2c] i2c_again empty_world).
  - reflexivity.
  - reflexivity.
  - right. reflexivity.
Defined.

(** ** Slave interfaces *)

(** For an interface with a non-empty name and mode S (in any case), the
    agent generator writes the agent file, the monitor and the coverage
    file, in that order, and neither a driver nor a sequencer file; the
    summary lists the same three. *)
Theorem slave_has_no_driver cwd intf :
  truthy (agent_name intf) = true →
  agent_mode intf = "S" →
  writes (agent_interface cwd intf) =
    [ agent_file cwd intf; comp_file cwd intf "mon"; comp_file cwd intf "cov" ]
  ∧ appended (agent_interface cwd intf) =
      (" -" +:+ agent_agent_class intf +:+ ".sv" +:+ nl)
        +:+ ("   └── " +:+ (agent_name intf +:+ "_" +:+ "mon")
               +:+ ".sv (extends uvm_monitor)" +:+ nl)
        +:+ ("   └── " +:+ (agent_name intf +:+ "_" +:+ "cov")
               +:+ ".sv (extends uvm_subscriber)" +:+ nl).
Proof.
  intros Hn Hm. split.
  - rewrite (agent_interface_kept cwd intf Hn (or_intror Hm)), Hm. reflexivity.
  - destruct (agent_interface_effects cwd intf) as [_ ->].
    unfold agent_interface_lines. rewrite Hn, Hm. simpl.
    unfold agent_component_line. simpl. by rewrite app_nil_r_s.
Qed.

Lemma slave_has_no_driver_witness :
  writes (agent_interface "/work" spi_slave) =
    [ agent_file "/work" spi_slave; comp_file "/work" spi_slave "mon";
      comp_file "/work" spi_slave "cov" ]
  ∧ appended (agent_interface "/work" spi_slave) =
      (" -" +:+ agent_agent_class spi_slave +:+ ".sv" +:+ nl)
        +:+ ("   └── " +:+ (agent_name spi_slave +:+ "_" +:+ "mon")
               +:+ ".sv (extends uvm_monitor)" +:+ nl)
        +:+ ("   └── " +:+ (agent_name spi_slave +:+ "_" +:+ "cov")
               +:+ ".sv (extends uvm_subscriber)" +:+ nl).
Proof. apply (slave_has_no_driver "/work" spi_slave); reflexivity. Defined.

(** ** Cross references of the top-level file *)

(** On a parsed configuration with a DUT name, the class that [top.sv]
    passes to [run_test] is the class of the file the test generator
    writes: both are the lower-cased DUT name followed by [_base_test]. *)
Theorem run_test_names_written_test cwd rows cfg d :
  read_interface_csv rows = Ok cfg →
  dut_name cfg = Some d →
  top_test_name cfg = lower d +:+ "_base_test"
  ∧ In ("    run_test(" +:+ dq +:+ top_test_name cfg +:+ dq +:+ ");") (top_lines cfg)
  ∧ ∃ content,
      In (Write (test_file_path cwd (top_test_name cfg)) content)
         (generate_uvm_test cwd cfg).
Proof.
  intros Hread Hd.
  destruct (read_interface_csv_parsed _ _ Hread) as [Hdut _].
  destruct (Hdut d Hd) as [Hs Ht].
  assert (top_test_name cfg = lower d +:+ "_base_test") as Hname.
  { unfold top_test_name, top_dut_name. by rewrite Hd. }
  assert (stem cfg = lower d) as Hstem.
  { unfold stem. rewrite Hd. simpl. by rewrite Hs. }
  split; [done|]. split.
  - unfold top_lines. in_app.
  - unfold generate_uvm_test. rewrite Hstem, Hname.
    unfold lower. rewrite truthy_smap, Ht. simpl. eexists. by left.
Qed.

Lemma run_test_names_written_test_witness :
  top_test_name sample_config = lower "usb_ctrl" +:+ "_base_test"
  ∧ In ("    run_test(" +:+ dq +:+ top_test_name sample_config +:+ dq +:+ ");")
       (top_lines sample_config)
  ∧ ∃ content,
      In (Write (test_file_path "/work" (top_test_name sample_config)) content)
         (generate_uvm_test "/work" sample_config).
Proof.
  apply (run_test_names_written_test "/work" sample_rows sample_config "usb_ctrl");
    reflexivity.
Defined.

(** The summary of the top-level generator lists, for every interface
    with a name, an instance [<name>_if_inst], the name [nil] included;
    [top.sv] names its instances [<name>_pif], never [<name>_if_inst], and
    has none for [nil]. *)
Theorem summary_instances_differ cfg intf :
  In intf (interfaces cfg) →
  truthy (name intf) = true →
  In ("    • " +:+ lower (name intf) +:+ "_if " +:+ lower (name intf)
        +:+ "_if_inst();") (top_readme_lines cfg)
  ∧ top_inst_name intf ≠ lower (name intf) +:+ "_if_inst"
  ∧ (defined (name intf) = true →
       In ("  " +:+ top_iface_type intf +:+ " " +:+ top_inst_name intf
             +:+ "();  // TODO: Create " +:+ name intf +:+ " interface files")
          (top_lines cfg))
  ∧ (defined (name intf) = false → top_intf_inst intf = []).
Proof.
  intros Hin Hn. split; [|split; [|split]].
  - unfold top_readme_lines.
    do 4 (apply in_or_app; right). apply in_or_app. left.
    apply in_flat_map. exists intf. split; [done|].
    unfold top_readme_inst. rewrite Hn. by left.
  - unfold top_inst_name. intros E.
    apply (inj (String.app (lower (name intf)))) in E. discriminate E.
  - intros Hd. unfold top_lines.
    do 6 (apply in_or_app; right). apply in_or_app. left.
    apply in_flat_map. exists intf. split; [done|].
    unfold top_intf_inst. rewrite Hd. by left.
  - intros Hd. unfold top_intf_inst. by rewrite Hd.
Qed.

Lemma summary_instances_differ_witness :
  let cfg := {| dut_name := None; num_interfaces := None;
                interfaces := [nil_master] |} in
  In ("    • " +:+ lower (name nil_master) +:+ "_if " +:+ lower (name nil_master)
        +:+ "_if_inst();") (top_readme_lines cfg)
  ∧ top_inst_name nil_master ≠ lower (name nil_master) +:+ "_if_inst"
  ∧ (defined (name nil_master) = true →
       In ("  " +:+ top_iface_type nil_master +:+ " " +:+ top_inst_name nil_master
             +:+ "();  // TODO: Create " +:+ name nil_master +:+ " interface files")
          (top_lines cfg))
  ∧ (defined (name nil_master) = false → top_intf_inst nil_master = []).
Proof.
  intros cfg. apply (summary_instances_differ cfg nil_master).
  - simpl. auto.
  - reflexivity.
Defined.

(** ** The header utility *)

Import InsertHeader.

Lemma no_linebreak_app a b :
  no_linebreak (a +:+ b) = no_linebreak a && no_linebreak b.
Proof.
  induction a as [|x a IH]; [done|]. rewrite app_cons_s. simpl.
  by rewrite IH, andb_assoc.
Qed.

Lemma no_linebreak_no_cr s : no_linebreak s = true → contains "013"%char s = false.
Proof.
  induction s as [|x s IH]; [done|]. simpl.
  intros [Hx Hs]%andb_true_iff. rewrite (IH Hs), orb_false_r.
  destruct (Ascii.eqb_spec x "013"%char) as [->|]; [done|done].
Qed.

Lemma universal_newlines_app a b :
  contains "013"%char a = false →
  universal_newlines (a +:+ b) = a +:+ universal_newlines b.
Proof.
  induction a as [|x a IH]; [done|]. rewrite !app_cons_s. simpl.
  intros [Hx Ha]%orb_false_iff. rewrite Hx. by rewrite IH.
Qed.

Lemma universal_newlines_clean s :
  contains "013"%char (universal_newlines s) = false
  ∧ ∀ c s', s = String c s' → contains "013"%char (universal_newlines s') = false.
Proof.
  induction s as [|x s [IH1 IH2]]; [by split|]. split.
  - simpl. destruct (Ascii.eqb_spec x "013"%char) as [->|Hx].
    + simpl. destruct s as [|y s]; [done|].
      destruct (Ascii.eqb y "010"%char); [by apply (IH2 y s)|done].
    + simpl. rewrite IH1, orb_false_r. by apply Ascii.eqb_neq.
  - by intros c s' [= _ <-].
Qed.

Lemma universal_newlines_id s :
  contains "013"%char s = false → universal_newlines s = s.
Proof.
  induction s as [|x s IH]; [done|]. simpl.
  intros [Hx Hs]%orb_false_iff. by rewrite Hx, IH.
Qed.

Lemma splitlines_line a rest :
  no_linebreak a = true →
  splitlines (a +:+ nl +:+ rest) = a :: splitlines rest.
Proof.
  induction a as [|x a IH].
  - intros _. by destruct rest.
  - rewrite app_cons_s. simpl. intros [Hx Ha]%andb_true_iff.
    apply negb_true_iff in Hx. rewrite Hx. by rewrite IH.
Qed.

Lemma splitlines_unlines ls rest :
  forallb no_linebreak ls = true →
  splitlines (unlines ls +:+ rest) = ls ++ splitlines rest.
Proof.
  induction ls as [|l ls IH]; [done|]. simpl.
  intros [Hl Hls]%andb_true_iff.
  rewrite !app_assoc_s, splitlines_line by done. by rewrite IH.
Qed.

(** The test never finds the header this function writes: each of its
    lines starts with a hash sign. *)
Lemma header_not_recognised today version rest :
  no_linebreak today = true → no_linebreak version = true →
  already_has_header (header today version +:+ rest) = false.
Proof.
  intros Ht Hv. unfold already_has_header, header.
  rewrite splitlines_unlines.
  - vm_compute. reflexivity.
  - cbn [forallb]. rewrite !no_linebreak_app, Ht, Hv. reflexivity.
Qed.

Lemma header_no_cr today version :
  no_linebreak today = true → no_linebreak version = true →
  contains "013"%char (header today version) = false.
Proof.
  intros Ht%no_linebreak_no_cr Hv%no_linebreak_no_cr. unfold header.
  cbn [unlines]. rewrite !contains_app, Ht, Hv. reflexivity.
Qed.

(** When the function inserts the header into a file, a second call
    inserts it again: the file then starts with two headers, followed by
    the original text with its line ends turned into line feeds.  (The
    date and the version are assumed to be single lines.) *)
Theorem second_insertion_repeats today path version w content :
  no_linebreak today = true → no_linebreak version = true →
  files w !! path = Some content →
  already_has_header (universal_newlines content) = false →
  ∃ w1 w2,
    insert_script_header today path version w = inr w1
    ∧ files w1 !! path
      = Some (header today version +:+ nl +:+ universal_newlines content)
    ∧ insert_script_header today path version w1 = inr w2
    ∧ files w2 !! path
      = Some (header today version +:+ nl +:+ header today version +:+ nl
                +:+ universal_newlines content)
    ∧ ∀ other, other ≠ path → files w2 !! other = files w !! other.
Proof.
  intros Ht Hv Hfile Hguard.
  unfold insert_script_header at 1. rewrite Hfile, Hguard.
  eexists. eexists. split; [reflexivity|].
  assert (files
            (exec [ Write path (header today version +:+ nl +:+ universal_newlines content);
                    Print ("✅ Header inserted at top of " +:+ path) ] w) !! path
          = Some (header today version +:+ nl +:+ universal_newlines content)) as H1.
  { unfold exec. simpl. apply lookup_insert_eq. }
  split; [exact H1|].
  unfold insert_script_header. rewrite H1.
  assert (universal_newlines (header today version +:+ nl +:+ universal_newlines content)
          = header today version +:+ nl +:+ universal_newlines content) as Hu.
  { apply universal_newlines_id. rewrite !contains_app.
    rewrite (header_no_cr _ _ Ht Hv). simpl.
    apply (universal_newlines_clean content). }
  rewrite Hu, (header_not_recognised _ _ _ Ht Hv).
  split; [reflexivity|]. split.
  - unfold exec. simpl. apply lookup_insert_eq.
  - intros other Ho. unfold exec. simpl.
    by rewrite !lookup_insert_ne.
Qed.

Lemma second_insertion_repeats_witness :
  let w := {| files := {[ "test1.py" := "print(1)" +:+ String "013"%char nl ]};
              console := [] |} in
  ∃ w1 w2,
    insert_script_header "July 01, 2025" "test1.py" "1.0.0" w = inr w1
    ∧ files w1 !! "test1.py"
      = Some (header "July 01, 2025" "1.0.0" +:+ nl
                +:+ universal_newlines ("print(1)" +:+ String "013"%char nl))
    ∧ insert_script_header "July 01, 2025" "test1.py" "1.0.0" w1 = inr w2
    ∧ files w2 !! "test1.py"
      = Some (header "July 01, 2025" "1.0.0" +:+ nl
                +:+ header "July 01, 2025" "1.0.0" +:+ nl
                +:+ universal_newlines ("print(1)" +:+ String "013"%char nl))
    ∧ ∀ other, other ≠ "test1.py" → files w2 !! other = files w !! other.
Proof.
  intros w.
  apply (second_insertion_repeats "July 01, 2025" "test1.py" "1.0.0" w
           ("print(1)" +:+ String "013"%char nl)); reflexivity.
Defined.

(** The test looks for a line that is exactly the author line without its
    hash sign: when that line is among the first ten lines of the file, the
    function writes nothing and only prints that the header exists. *)
Theorem bare_author_line_skips today path version w before after :
  (length before < 10)%nat → forallb no_linebreak before = true →
  files w !! path
  = Some (unlines before +:+ "Author      : Koushik Shridhar" +:+ nl +:+ after) →
  insert_script_header today path version w
  = inr {| files := files w;
           console := console w
                        ++ ["⚠️  Header already exists. Skipping insertion."] |}.
Proof.
  intros Hlen Hb Hfile. unfold insert_script_header. rewrite Hfile.
  assert (contains "013"%char (unlines before) = false) as Hcr.
  { clear Hlen Hfile. induction before as [|l ls IH]; [done|].
    simpl in *. apply andb_true_iff in Hb as [Hl Hls].
    rewrite !contains_app, (no_linebreak_no_cr _ Hl), IH by done. done. }
  rewrite universal_newlines_app by done.
  rewrite (universal_newlines_app "Author      : Koushik Shridhar") by done.
  assert (already_has_header
            (unlines before +:+ "Author      : Koushik Shridhar"
               +:+ universal_newlines (nl +:+ after)) = true) as ->.
  { unfold already_has_header.
    change (universal_newlines (nl +:+ after)) with (nl +:+ universal_newlines after).
    rewrite splitlines_unlines, splitlines_line by done.
    rewrite take_app_ge, existsb_app by lia.
    apply orb_true_iff. right.
    destruct (10 - length before)%nat eqn:E; [lia|]. reflexivity. }
  reflexivity.
Qed.

Lemma bare_author_line_skips_witness :
  let w := {| files := {[ "notes.txt" :=
                unlines ["first line"; "second line"]
                  +:+ "Author      : Koushik Shridhar" +:+ nl +:+ "rest" ]};
              console := [] |} in
  insert_script_header "July 01, 2025" "notes.txt" "1.0.0" w
  = inr {| files := files w;
           console := console w
                        ++ ["⚠️  Header already exists. Skipping insertion."] |}.
Proof.
  intros w.
  apply (bare_author_line_skips "July 01, 2025" "notes.txt" "1.0.0" w
           ["first line"; "second line"] "rest").
  - simpl. lia.
  - reflexivity.
  - reflexivity.
Defined.
